(** * Restaurant point-of-sale server: the request handlers over the key-value store

    A shallow embedding of the Hono server of the repository (the file that
    registers the routes under [/make-server-e0724fe2/]).  Each handler is a
    function from its request fields and the store before the request to the
    JSON response and the store after it.

    - JavaScript numbers are IEEE binary64 values: [float] with the
      primitive operations of [PrimFloat].  Table numbers and array
      positions are integers ([Z]).
    - [crypto.randomUUID()], [Date.now()] and the calendar day of
      [new Date().toISOString()] are inputs of the handler that uses them.
    - Requests are handled one at a time: every [await] has completed before
      the next statement runs. *)

From Stdlib Require Import PrimFloat.
From stdpp Require Import gmap strings list fin_maps pretty.

Local Open Scope Z_scope.

(** ** Stored objects *)

Module Item.
(** [{productId, name, quantity, price, category}] *)
Record t := mk
    { productId : string; name : string; quantity : float;
      price : float; category : string }.
End Item.

Module Ingredient.
(** [{name, quantity, unit}] *)
Record t := mk { name : string; quantity : float; unit : string }.
End Ingredient.

Module Restaurant.
Record t := mk
    { id : string; email : string; password : string; name : string;
      paid : bool; managerPassword : string; createdAt : float }.
End Restaurant.

Module Table.
Record t := mk { number : Z; orders : list string }.
End Table.

Module Order.
Record t := mk
    { id : string; restaurantId : string; tableNumber : Z;
      items : list Item.t; status : string; timestamp : float }.
End Order.

Module Product.
Record t := mk
    { id : string; name : string; price : float; category : string;
      ingredients : list Ingredient.t }.
End Product.

Module Inventory.
Record t := mk { ingredient : string; quantity : float; unit : string }.
End Inventory.

Module Sales.
Record t := mk { date : string; total : float; count : float }.
End Sales.

(** What a key of the store can hold: one of the six objects the handlers
    write, or the restaurant id string kept under the email index. *)
Inductive value :=
  | VId (s : string)
  | VRestaurant (r : Restaurant.t)
  | VTable (t : Table.t)
  | VOrder (o : Order.t)
  | VProduct (p : Product.t)
  | VInventory (i : Inventory.t)
  | VSales (s : Sales.t).

(** ** The key-value store *)

(** Modelled from the spec: [kv_store.tsx] is imported by the server but is
    not among the sources.  The spec describes it as a mapping from string
    key to structured value with point get, set and delete and a prefix
    scan that returns every matching record in no guaranteed order.
    [kv.get k] is [kv !! k], [kv.set k v] is [<[k:=v]> kv], [kv.del k] is
    [delete k kv]. *)
Abbreviation store := (gmap string value).

(** [s] starts with [p]. *)
Fixpoint starts_with (p s : string) : bool :=
  match p, s with
  | EmptyString, _ => true
  | String a p, String b s => Ascii.eqb a b && starts_with p s
  | String _ _, EmptyString => false
  end.

(** Modelled from the spec: [kv.getByPrefix] of the absent [kv_store.tsx],
    the prefix scan that returns the value of every key starting with the
    prefix, in no guaranteed order (here the order of [map_to_list]). *)
Definition getByPrefix (prefix : string) (kv : store) : list value :=
  (map_to_list (filter (λ e, starts_with prefix e.1 = true) kv)).*2.

(** The key templates of the handlers. *)
Definition restaurant_key (restaurantId : string) : string :=
  "restaurant:" +:+ restaurantId.
Definition email_key (email : string) : string :=
  "restaurant:email:" +:+ email.
Definition table_prefix (restaurantId : string) : string :=
  "table:" +:+ restaurantId +:+ ":".
Definition table_key (restaurantId : string) (tableNumber : Z) : string :=
  "table:" +:+ restaurantId +:+ ":" +:+ pretty tableNumber.
Definition order_key (restaurantId orderId : string) : string :=
  "order:" +:+ restaurantId +:+ ":" +:+ orderId.
Definition product_key (restaurantId productId : string) : string :=
  "product:" +:+ restaurantId +:+ ":" +:+ productId.
Definition inventory_key (restaurantId ingredient : string) : string :=
  "inventory:" +:+ restaurantId +:+ ":" +:+ ingredient.
Definition sales_key (restaurantId today : string) : string :=
  "sales:" +:+ restaurantId +:+ ":" +:+ today.

(** The key scheme: the kind of a stored value is fixed by the first
    segment of its key.  Both restaurant records and email-index entries
    live under ["restaurant:"]. *)
Definition kind_prefix (v : value) : string :=
  match v with
  | VId _ | VRestaurant _ => "restaurant:"
  | VTable _ => "table:"
  | VOrder _ => "order:"
  | VProduct _ => "product:"
  | VInventory _ => "inventory:"
  | VSales _ => "sales:"
  end.

Definition kind_ok (k : string) (v : value) : bool :=
  starts_with (kind_prefix v) k.

Definition wf (kv : store) : Prop :=
  map_Forall (λ k v, kind_ok k v = true) kv.

(** ** Responses *)

(** The JSON bodies the handlers send.  [Failure ctx] is the body of a
    [catch] block, [{error: `${ctx}: ${error}`}]; the text of the caught
    exception is not modelled. *)
Inductive body :=
  | Success
  | SuccessId (id : string)
  | OrderList (orders : list Order.t)
  | ValueList (values : list value)
  | Error (error : string)
  | Failure (context : string).

Record response := Json { body_of : body; status : Z }.

Definition ok (b : body) : response := Json b 200.

(** A handler maps the store before the request to the response and the
    store after it.  The result is [None] only when a key holds an object
    of a kind the key scheme excludes ([wf] fails), where the JavaScript
    would read absent properties off a foreign object. *)
Abbreviation handler := (store → option (response * store)).

(** JavaScript truthiness of a stored value: an object is truthy, a string
    is truthy unless empty. *)
Definition truthy (v : value) : bool :=
  match v with
  | VId s => negb (String.eqb s "")
  | _ => true
  end.

Definition falsy_string (s : string) : bool := String.eqb s "".

(** ** Restaurant registry *)

(** [POST /signup].  [restaurantId] is the result of [crypto.randomUUID()]
    and [now] that of [Date.now()]. *)
Definition provision_tables (restaurantId : string) (kv : store) : store :=
  foldl (λ kv i,
           <[table_key restaurantId i := VTable (Table.mk i [])]> kv)
        kv (seqZ 1 10).

Definition signup (restaurantId : string) (now : float)
    (email password restaurantName paymentToken : string) : handler := λ kv,
  if falsy_string email || falsy_string password
     || falsy_string restaurantName || falsy_string paymentToken
  then Some (Json (Error "Missing required fields") 400, kv)
  else if negb (String.eqb paymentToken "PAID")
  then Some (Json (Error "Payment required to create account") 402, kv)
  else
    let existingId := kv !! email_key email in
    if from_option truthy false existingId
    then Some (Json (Error "Email already registered") 400, kv)
    else
      let restaurant :=
        Restaurant.mk restaurantId email password restaurantName true "" now in
      let kv := <[restaurant_key restaurantId := VRestaurant restaurant]> kv in
      let kv := <[email_key email := VId restaurantId]> kv in
      let kv := provision_tables restaurantId kv in
      Some (ok (SuccessId restaurantId), kv).

(** [POST /set-manager-password].  Assigning a property on a primitive
    string throws in a module (strict mode); the [catch] answers 500. *)
Definition setManagerPassword (restaurantId password : string) : handler := λ kv,
  match kv !! restaurant_key restaurantId with
  | None => Some (Json (Error "Restaurant not found") 404, kv)
  | Some (VRestaurant r) =>
      let restaurant :=
        Restaurant.mk (Restaurant.id r) (Restaurant.email r)
          (Restaurant.password r) (Restaurant.name r) (Restaurant.paid r)
          password (Restaurant.createdAt r) in
      Some (ok Success,
            <[restaurant_key restaurantId := VRestaurant restaurant]> kv)
  | Some (VId s) =>
      if truthy (VId s)
      then Some (Json (Failure "Failed to set password") 500, kv)
      else Some (Json (Error "Restaurant not found") 404, kv)
  | Some _ => None
  end.

(** [POST /verify-manager].  On a string, [restaurant.managerPassword] is
    [undefined], which differs from every password. *)
Definition verifyManager (restaurantId password : string) : handler := λ kv,
  match kv !! restaurant_key restaurantId with
  | None => Some (Json (Error "Restaurant not found") 404, kv)
  | Some (VRestaurant r) =>
      if negb (String.eqb (Restaurant.managerPassword r) password)
      then Some (Json (Error "Invalid manager password") 401, kv)
      else Some (ok Success, kv)
  | Some (VId s) =>
      if truthy (VId s)
      then Some (Json (Error "Invalid manager password") 401, kv)
      else Some (Json (Error "Restaurant not found") 404, kv)
  | Some _ => None
  end.

(** ** Table and order ledger *)

(** A [for (const x of l) { ... }] loop whose body reads and writes the
    store. *)
Fixpoint for_of {A} (body : A → store → option store) (l : list A)
    (kv : store) : option store :=
  match l with
  | [] => Some kv
  | x :: l => kv ← body x kv; for_of body l kv
  end.

(** The body of the inner inventory loop of [POST /orders]. *)
Definition deductIngredient (restaurantId : string) (item : Item.t)
    (ingredient : Ingredient.t) (kv : store) : option store :=
  let inventoryKey :=
    inventory_key restaurantId (Ingredient.name ingredient) in
  match kv !! inventoryKey with
  | None => Some kv
  | Some (VInventory current) =>
      let current :=
        Inventory.mk (Inventory.ingredient current)
          (Inventory.quantity current
           - Ingredient.quantity ingredient * Item.quantity item)%float
          (Inventory.unit current) in
      Some (<[inventoryKey := VInventory current]> kv)
  | Some _ => None
  end.

(** The body of the outer inventory loop.  A stored product always has an
    [ingredients] array, which is truthy even when empty. *)
Definition deductItem (restaurantId : string) (item : Item.t)
    (kv : store) : option store :=
  match kv !! product_key restaurantId (Item.productId item) with
  | None => Some kv
  | Some (VProduct product) =>
      for_of (deductIngredient restaurantId item)
        (Product.ingredients product) kv
  | Some _ => None
  end.

(** [POST /orders].  [orderId] is the result of [crypto.randomUUID()] and
    [now] that of [Date.now()]. *)
Definition placeOrder (orderId : string) (now : float)
    (restaurantId : string) (tableNumber : Z) (items : list Item.t)
    : handler := λ kv,
  let order :=
    Order.mk orderId restaurantId tableNumber items "pending" now in
  let kv := <[order_key restaurantId orderId := VOrder order]> kv in
  kv ← match kv !! table_key restaurantId tableNumber with
       | None => Some kv
       | Some (VTable table) =>
           let table :=
             Table.mk (Table.number table) (Table.orders table ++ [orderId]) in
           Some (<[table_key restaurantId tableNumber := VTable table]> kv)
       | Some _ => None
       end;
  kv ← for_of (deductItem restaurantId) items kv;
  Some (ok (SuccessId orderId), kv).

(** [PUT /orders/:orderId/ready] *)
Definition markReady (restaurantId orderId : string) : handler := λ kv,
  match kv !! order_key restaurantId orderId with
  | None => Some (Json (Error "Order not found") 404, kv)
  | Some (VOrder o) =>
      let order :=
        Order.mk (Order.id o) (Order.restaurantId o) (Order.tableNumber o)
          (Order.items o) "ready" (Order.timestamp o) in
      Some (ok Success, <[order_key restaurantId orderId := VOrder order]> kv)
  | Some _ => None
  end.

(** [DELETE /orders/:orderId] *)
Definition completeOrder (restaurantId orderId : string) : handler := λ kv,
  Some (ok Success, delete (order_key restaurantId orderId) kv).

(** [items.splice(start, 1)]: a negative [start] counts from the end, the
    start is clamped to the array, and one element is removed when the
    clamped start is inside it. *)
Definition splice1 {A} (start : Z) (l : list A) : list A :=
  let len := Z.of_nat (length l) in
  let actualStart :=
    if start <? 0 then Z.max (len + start) 0 else Z.min start len in
  delete (Z.to_nat actualStart) l.

(** [items[i]]: [undefined] unless [i] is a position of the array. *)
Definition index {A} (l : list A) (i : Z) : option A :=
  if 0 <=? i then l !! Z.to_nat i else None.

Definition setQuantity (item : Item.t) (quantity : float) : Item.t :=
  Item.mk (Item.productId item) (Item.name item) quantity
    (Item.price item) (Item.category item).

(** [PUT /orders/:orderId/items].  [quantity === 0] holds for both zeros.
    Writing [.quantity] on [undefined] throws; the [catch] answers 500 and
    nothing has been written. *)
Definition updateLineItem (restaurantId orderId : string) (itemIndex : Z)
    (quantity : float) : handler := λ kv,
  match kv !! order_key restaurantId orderId with
  | None => Some (Json (Error "Order not found") 404, kv)
  | Some (VOrder o) =>
      let save items :=
        let order :=
          Order.mk (Order.id o) (Order.restaurantId o) (Order.tableNumber o)
            items (Order.status o) (Order.timestamp o) in
        Some (ok Success,
              <[order_key restaurantId orderId := VOrder order]> kv) in
      if (quantity =? 0)%float
      then save (splice1 itemIndex (Order.items o))
      else
        match index (Order.items o) itemIndex with
        | Some item =>
            save (<[Z.to_nat itemIndex := setQuantity item quantity]>
                    (Order.items o))
        | None => Some (Json (Failure "Failed to update order item") 500, kv)
        end
  | Some _ => None
  end.

(** The loop of [GET /tables/:restaurantId/:tableNumber/orders]: the orders
    that resolve, in the order of the table's list. *)
Fixpoint fetchOrders (restaurantId : string) (orderIds : list string)
    (kv : store) : option (list Order.t) :=
  match orderIds with
  | [] => Some []
  | orderId :: orderIds =>
      match kv !! order_key restaurantId orderId with
      | None => fetchOrders restaurantId orderIds kv
      | Some (VOrder order) =>
          orders ← fetchOrders restaurantId orderIds kv; Some (order :: orders)
      | Some _ => None
      end
  end.

Definition listTableOrders (restaurantId : string) (tableNumber : Z)
    : handler := λ kv,
  match kv !! table_key restaurantId tableNumber with
  | None => Some (ok (OrderList []), kv)
  | Some (VTable table) =>
      orders ← fetchOrders restaurantId (Table.orders table) kv;
      Some (ok (OrderList orders), kv)
  | Some _ => None
  end.

(** [GET /tables/:restaurantId] *)
Definition listTables (restaurantId : string) : handler := λ kv,
  Some (ok (ValueList (getByPrefix (table_prefix restaurantId) kv)), kv).

(** The literal [1.1] denotes the binary64 value nearest to it. *)
Definition service_factor : float := 0x1.199999999999ap+0%float.

(** [POST /tables/:restaurantId/:tableNumber/close].  [tableNumber] is the
    integer [parseInt] reads off the path, [today] the day part of the
    current ISO timestamp, [subtotal] the field of the body. *)
Definition closeTable (today : string) (restaurantId : string)
    (tableNumber : Z) (subtotal : float) : handler := λ kv,
  match kv !! table_key restaurantId tableNumber with
  | None => Some (Json (Error "Table not found") 404, kv)
  | Some (VTable t) =>
      let kv :=
        foldl (λ kv orderId, delete (order_key restaurantId orderId) kv)
          kv (Table.orders t) in
      let table := Table.mk (Table.number t) [] in
      let kv := <[table_key restaurantId tableNumber := VTable table]> kv in
      let salesKey := sales_key restaurantId today in
      sales ← match kv !! salesKey with
              | None => Some (Sales.mk today 0 0)
              | Some (VSales sales) => Some sales
              | Some _ => None
              end;
      let sales :=
        Sales.mk (Sales.date sales)
          (Sales.total sales + subtotal * service_factor)%float
          (Sales.count sales + 1)%float in
      Some (ok Success, <[salesKey := VSales sales]> kv)
  | Some _ => None
  end.

(** ** Products and inventory *)

(** [POST /products]: a missing [ingredients] field becomes the empty
    array. *)
Definition addProduct (productId : string) (restaurantId name : string)
    (price : float) (category : string)
    (ingredients : option (list Ingredient.t)) : handler := λ kv,
  let product :=
    Product.mk productId name price category (default [] ingredients) in
  Some (ok (SuccessId productId),
        <[product_key restaurantId productId := VProduct product]> kv).

(** [DELETE /products/:productId] *)
Definition deleteProduct (restaurantId productId : string) : handler := λ kv,
  Some (ok Success, delete (product_key restaurantId productId) kv).

(** [POST /inventory] *)
Definition adjustInventory (restaurantId ingredient : string)
    (quantity : float) (unit : string) : handler := λ kv,
  let inventoryKey := inventory_key restaurantId ingredient in
  current ← match kv !! inventoryKey with
            | None => Some (Inventory.mk ingredient 0 unit)
            | Some (VInventory current) => Some current
            | Some _ => None
            end;
  let current :=
    Inventory.mk (Inventory.ingredient current)
      (Inventory.quantity current + quantity)%float
      (Inventory.unit current) in
  Some (ok Success, <[inventoryKey := VInventory current]> kv).

(** ** Requests *)

(** One constructor per route that writes to the store, with the values
    drawn from the environment first. *)
Inductive request :=
  | Signup (restaurantId : string) (now : float)
      (email password restaurantName paymentToken : string)
  | SetManagerPassword (restaurantId password : string)
  | PlaceOrder (orderId : string) (now : float) (restaurantId : string)
      (tableNumber : Z) (items : list Item.t)
  | MarkReady (restaurantId orderId : string)
  | CompleteOrder (restaurantId orderId : string)
  | UpdateLineItem (restaurantId orderId : string) (itemIndex : Z)
      (quantity : float)
  | CloseTable (today restaurantId : string) (tableNumber : Z)
      (subtotal : float)
  | AddProduct (productId restaurantId name : string) (price : float)
      (category : string) (ingredients : option (list Ingredient.t))
  | DeleteProduct (restaurantId productId : string)
  | AdjustInventory (restaurantId ingredient : string) (quantity : float)
      (unit : string).

Definition handle (req : request) : handler :=
  match req with
  | Signup id now e p n t => signup id now e p n t
  | SetManagerPassword id p => setManagerPassword id p
  | PlaceOrder oid now id n items => placeOrder oid now id n items
  | MarkReady id oid => markReady id oid
  | CompleteOrder id oid => completeOrder id oid
  | UpdateLineItem id oid i q => updateLineItem id oid i q
  | CloseTable today id n s => closeTable today id n s
  | AddProduct pid id n p c ings => addProduct pid id n p c ings
  | DeleteProduct id pid => deleteProduct id pid
  | AdjustInventory id g q u => adjustInventory id g q u
  end.

(** The store after a sequence of requests, handled in order. *)
Fixpoint run (reqs : list request) (kv : store) : option store :=
  match reqs with
  | [] => Some kv
  | req :: reqs => '(_, kv) ← handle req kv; run reqs kv
  end.

(** * Definitions used by the statements *)

(** The key scheme can be checked on a given store. *)
Global Instance wf_dec (kv : store) : Decision (wf kv).
Proof. unfold wf. apply _. Defined.

(** The order with its status set to ready. *)
Definition ready (o : Order.t) : Order.t :=
  Order.mk (Order.id o) (Order.restaurantId o) (Order.tableNumber o)
    (Order.items o) "ready" (Order.timestamp o).

(** The 404 answers. *)
Definition order_not_found : response := Json (Error "Order not found") 404.

(** The sales record the day starts from: the stored one, or zeros. *)
Definition sales_before (today : string) (v : option value) : Sales.t :=
  match v with
  | Some (VSales sales) => sales
  | _ => Sales.mk today 0 0
  end.

Definition table_not_found : response := Json (Error "Table not found") 404.

(** What one pass of the inner loop body subtracts. *)
Definition amount (item : Item.t) (ingredient : Ingredient.t) : float :=
  (Ingredient.quantity ingredient * Item.quantity item)%float.

(** An inventory record after [current.quantity -= d]. *)
Definition deduct (d : float) (v : value) : value :=
  match v with
  | VInventory i =>
      VInventory
        (Inventory.mk (Inventory.ingredient i) (Inventory.quantity i - d)%float
           (Inventory.unit i))
  | v => v
  end.

(** The deductions an order asks for, in the order the loops make them:
    for each item whose product is stored, one per ingredient of the
    product, as ingredient name and amount. *)
Definition item_deductions (restaurantId : string) (kv : store)
    (item : Item.t) : list (string * float) :=
  match kv !! product_key restaurantId (Item.productId item) with
  | Some (VProduct product) =>
      (λ ingredient, (Ingredient.name ingredient, amount item ingredient))
        <$> Product.ingredients product
  | _ => []
  end.

Definition order_deductions (restaurantId : string) (kv : store)
    (items : list Item.t) : list (string * float) :=
  items ≫= item_deductions restaurantId kv.

(** The amounts among [ds] that name ingredient [g], and what they leave
    of what is stored under the ingredient. *)
Definition amounts_for (g : string) (ds : list (string * float)) : list float :=
  (filter (λ d, d.1 = g) ds).*2.

Definition after_deductions (amounts : list float) (v : option value)
    : option value :=
  foldl (λ v d, deduct d <$> v) v amounts.

(** The state kept by the inventory loops, relative to the store [kv0]
    they start from: the key scheme holds, keys that are not inventory
    keys of the restaurant hold what they held, and every inventory key
    holds what the deductions [ds] made so far leave of it. *)
Definition deducted (restaurantId : string) (kv0 : store)
    (ds : list (string * float)) (kv : store) : Prop :=
  wf kv
  ∧ (∀ k, (∀ g, k ≠ inventory_key restaurantId g) → kv !! k = kv0 !! k)
  ∧ (∀ g, kv !! inventory_key restaurantId g
          = after_deductions (amounts_for g ds)
              (kv0 !! inventory_key restaurantId g)).

(** The order object [POST /orders] builds. *)
Definition new_order (orderId : string) (now : float) (restaurantId : string)
    (tableNumber : Z) (items : list Item.t) : Order.t :=
  Order.mk orderId restaurantId tableNumber items "pending" now.

(** The table after [table.orders.push(orderId)]. *)
Definition with_order (orderId : string) (t : Table.t) : Table.t :=
  Table.mk (Table.number t) (Table.orders t ++ [orderId]).

(** The store [POST /orders] has built when it reaches the inventory
    loops: the order is stored and, when the table exists, linked. *)
Definition order_linked (orderId : string) (now : float)
    (restaurantId : string) (tableNumber : Z) (items : list Item.t)
    (kv : store) : store :=
  let kv1 :=
    <[order_key restaurantId orderId :=
        VOrder (new_order orderId now restaurantId tableNumber items)]> kv in
  match kv !! table_key restaurantId tableNumber with
  | Some (VTable t) =>
      <[table_key restaurantId tableNumber := VTable (with_order orderId t)]>
        kv1
  | _ => kv1
  end.

(** The order with its items replaced. *)
Definition with_items (o : Order.t) (items : list Item.t) : Order.t :=
  Order.mk (Order.id o) (Order.restaurantId o) (Order.tableNumber o) items
    (Order.status o) (Order.timestamp o).

(** The restaurant object [POST /signup] builds. *)
Definition new_restaurant (restaurantId : string) (now : float)
    (email password restaurantName : string) : Restaurant.t :=
  Restaurant.mk restaurantId email password restaurantName true "" now.

(** The ten tables a signup provisions. *)
Definition empty_tables : list value :=
  (λ i, VTable (Table.mk i [])) <$> seqZ 1 10.

(** The store a successful signup leaves. *)
Definition registered (restaurantId : string) (now : float)
    (email password restaurantName : string) (kv : store) : store :=
  provision_tables restaurantId
    (<[email_key email := VId restaurantId]>
       (<[restaurant_key restaurantId :=
            VRestaurant
              (new_restaurant restaurantId now email password restaurantName)]>
          kv)).

(** The keys of the registry: restaurant records and the email index. *)
Definition registry_key (k : string) : Prop := starts_with "restaurant:" k = true.

(** What a handler guarantees on a store laid out by the key scheme: it
    completes, keeps the scheme, and leaves alone every key that [frame]
    selects. *)
Definition keeps (frame : string → Prop) (kv : store)
    (result : option (response * store)) : Prop :=
  ∃ r kv', result = Some (r, kv') ∧ wf kv'
           ∧ ∀ k, frame k → kv' !! k = kv !! k.

(** The requests that leave the manager password of [restaurantId] alone:
    all but [setManagerPassword] on it and a signup that would mint its id
    a second time (which [crypto.randomUUID()] does not do). *)
Definition leaves_password (restaurantId : string) (req : request) : bool :=
  match req with
  | Signup id _ _ _ _ _ | SetManagerPassword id _ =>
      negb (String.eqb id restaurantId)
  | _ => true
  end.

(** The restaurant is stored and its manager password is the empty
    string. *)
Definition password_unset (restaurantId : string) (kv : store) : Prop :=
  ∃ r, kv !! restaurant_key restaurantId = Some (VRestaurant r)
       ∧ Restaurant.managerPassword r = "".

(** ** Sample data *)

(** One restaurant, table 3 with one pending order of two items. *)
Definition sample_items : list Item.t :=
  [Item.mk "p1" "Burger" 2 25 "food"; Item.mk "p2" "Juice" 1 8 "drink"].

Definition sample_order : Order.t :=
  Order.mk "o1" "r1" 3 sample_items "pending" 1700000000000.

Definition sample_store : store :=
  <[order_key "r1" "o1" := VOrder sample_order]>
    (<[table_key "r1" 3 := VTable (Table.mk 3 ["o1"])]> ∅).

(** A restaurant with one product on the menu and its two ingredients in
    stock. *)
Definition sample_kitchen : store :=
  <[product_key "r1" "p1" :=
      VProduct
        (Product.mk "p1" "Burger" 25 "food"
           [Ingredient.mk "bun" 1 "un"; Ingredient.mk "beef" 200 "g"])]>
    (<[inventory_key "r1" "bun" := VInventory (Inventory.mk "bun" 2 "un")]>
       (<[inventory_key "r1" "beef" :=
            VInventory (Inventory.mk "beef" 1000 "g")]>
          (<[table_key "r1" 3 := VTable (Table.mk 3 [])]> ∅))).

(** A service at restaurant [7d9f], with a manager password set in
    another restaurant meanwhile. *)
Definition sample_requests : list request :=
  [ AddProduct "p1" "7d9f" "Burger" 25 "food"
      (Some [Ingredient.mk "bun" 1 "un"]);
    AdjustInventory "7d9f" "bun" 40 "un";
    PlaceOrder "o1" 1700000000600 "7d9f" 4 [Item.mk "p1" "Burger" 2 25 "food"];
    MarkReady "7d9f" "o1";
    SetManagerPassword "other" "hunter2";
    UpdateLineItem "7d9f" "o1" 0 3;
    CloseTable "2024-03-09" "7d9f" 4 75 ].

(** * The remaining routes and the views that call them *)

(** ** Logging in *)

(** What [POST /login] answers: the success object with the id as stored
    under the email index, or an error. *)
Inductive login_body :=
  | LoginSuccess (restaurantId : value) (restaurantName : string)
      (hasManagerPassword : bool)
  | LoginError (error : string).

(** A stored value inside a template literal: a string as it is, an object
    as ["[object Object]"]. *)
Definition template (v : value) : string :=
  match v with
  | VId s => s
  | _ => "[object Object]"
  end.

Definition invalid_credentials : login_body * Z :=
  (LoginError "Invalid credentials", 401).

(** [POST /login].  It reads the store and writes nothing.  On anything
    but a restaurant record [restaurant.password] is [undefined], which
    differs from every password. *)
Definition login (email password : string) (kv : store) : login_body * Z :=
  if falsy_string email || falsy_string password
  then (LoginError "Missing email or password", 400)
  else
    match kv !! email_key email with
    | None => invalid_credentials
    | Some restaurantId =>
        if negb (truthy restaurantId) then invalid_credentials
        else
          match kv !! restaurant_key (template restaurantId) with
          | Some (VRestaurant restaurant) =>
              if negb (String.eqb (Restaurant.password restaurant) password)
              then invalid_credentials
              else
                (LoginSuccess restaurantId (Restaurant.name restaurant)
                   (negb (falsy_string (Restaurant.managerPassword restaurant))),
                 200)
          | _ => invalid_credentials
          end
    end.

(** ** The listing routes *)

Definition order_prefix (restaurantId : string) : string :=
  "order:" +:+ restaurantId +:+ ":".
Definition product_prefix (restaurantId : string) : string :=
  "product:" +:+ restaurantId +:+ ":".
Definition inventory_prefix (restaurantId : string) : string :=
  "inventory:" +:+ restaurantId +:+ ":".
Definition sales_prefix (restaurantId : string) : string :=
  "sales:" +:+ restaurantId +:+ ":".

(** [item.category === "food"] *)
Definition isFood (item : Item.t) : bool :=
  String.eqb (Item.category item) "food".

(** The filter of [GET /kitchen-orders/:restaurantId] on one scanned value.
    A value that is not an order has no [status] and is dropped before its
    items are looked at. *)
Definition kitchenOrder (v : value) : option Order.t :=
  match v with
  | VOrder order =>
      if String.eqb (Order.status order) "pending"
         && existsb isFood (Order.items order)
      then Some order
      else None
  | _ => None
  end.

(** [GET /kitchen-orders/:restaurantId] *)
Definition listKitchenOrders (restaurantId : string) : handler := λ kv,
  Some (ok (OrderList
              (omap kitchenOrder (getByPrefix (order_prefix restaurantId) kv))),
        kv).

(** [GET /products/:restaurantId] *)
Definition listProducts (restaurantId : string) : handler := λ kv,
  Some (ok (ValueList (getByPrefix (product_prefix restaurantId) kv)), kv).

(** [GET /inventory/:restaurantId] *)
Definition listInventory (restaurantId : string) : handler := λ kv,
  Some (ok (ValueList (getByPrefix (inventory_prefix restaurantId) kv)), kv).

(** [GET /sales/:restaurantId] *)
Definition listSales (restaurantId : string) : handler := λ kv,
  Some (ok (ValueList (getByPrefix (sales_prefix restaurantId) kv)), kv).

(** ** The cashier and kitchen views *)

(** [loadReadyOrders] of the cashier view: what it keeps of the [orders]
    of the kitchen-orders response. *)
Definition loadReadyOrders (orders : list Order.t) : list Order.t :=
  filter (λ o, Order.status o = "ready") orders.

(** [foodOrders] of the kitchen view. *)
Definition foodOrders (orders : list Order.t) : list Order.t :=
  filter (λ order, existsb isFood (Order.items order) = true) orders.

(** [getTableTotal] of the cashier view, on the orders loaded for the
    table: both [reduce] calls start from 0 and add from the left. *)
Definition itemsTotal (items : list Item.t) : float :=
  foldl (λ itemSum item, (itemSum + Item.price item * Item.quantity item)%float)
    0%float items.

Definition getTableTotal (orders : list Order.t) : float :=
  foldl (λ sum order, (sum + itemsTotal (Order.items order))%float)
    0%float orders.





(** ** The carts of the waiter view and of the delivery dialog *)

Module CartItem.
(** [{ product, quantity }] *)
Record t := mk { product : Product.t; quantity : float }.
End CartItem.

(** [item.product.id === id] *)
Definition hasProduct (id : string) (item : CartItem.t) : bool :=
  String.eqb (Product.id (CartItem.product item)) id.

Definition changeQuantity (delta : float) (item : CartItem.t) : CartItem.t :=
  CartItem.mk (CartItem.product item) (CartItem.quantity item + delta)%float.

Definition lessQuantity (item : CartItem.t) : CartItem.t :=
  CartItem.mk (CartItem.product item) (CartItem.quantity item - 1)%float.

(** [addToCart] of the waiter view; the plus button of the delivery dialog
    runs the same code on the delivery cart. *)
Definition addToCart (product : Product.t) (cart : list CartItem.t)
    : list CartItem.t :=
  match find (hasProduct (Product.id product)) cart with
  | Some existing =>
      map (λ item, if hasProduct (Product.id product) item
                   then changeQuantity 1 item else item) cart
  | None => cart ++ [CartItem.mk product 1]
  end.

(** [removeFromCart] of the waiter view. *)
Definition removeFromCart (productId : string) (cart : list CartItem.t)
    : list CartItem.t :=
  let decremented :=
    map (λ item, if hasProduct productId item then lessQuantity item else item)
      cart in
  let removed := List.filter (λ item, negb (hasProduct productId item)) cart in
  match find (hasProduct productId) cart with
  | Some existing =>
      if (1 <? CartItem.quantity existing)%float then decremented else removed
  | None => removed
  end.

(** The minus button of the delivery dialog. *)
Definition deliveryMinus (productId : string) (cart : list CartItem.t)
    : list CartItem.t :=
  List.filter (λ i, (0 <? CartItem.quantity i)%float)
    (map (λ i, if hasProduct productId i && (1 <? CartItem.quantity i)%float
               then lessQuantity i else i) cart).

(** The [items] both views send to [POST /orders]. *)
Definition cartItems (cart : list CartItem.t) : list Item.t :=
  map (λ item,
         Item.mk (Product.id (CartItem.product item))
           (Product.name (CartItem.product item)) (CartItem.quantity item)
           (Product.price (CartItem.product item))
           (Product.category (CartItem.product item))) cart.

(** ** What a request may touch *)

(** The restaurant a request names. *)
Definition request_restaurant (req : request) : string :=
  match req with
  | Signup id _ _ _ _ _ | SetManagerPassword id _ | PlaceOrder _ _ id _ _
  | MarkReady id _ | CompleteOrder id _ | UpdateLineItem id _ _ _
  | CloseTable _ id _ _ | AddProduct _ id _ _ _ _ | DeleteProduct id _
  | AdjustInventory id _ _ _ => id
  end.

(** The keys under a restaurant id: its record and whatever starts with
    one of its five prefixes. *)
Definition own_key (restaurantId k : string) : bool :=
  String.eqb k (restaurant_key restaurantId)
  || starts_with (table_prefix restaurantId) k
  || starts_with (order_prefix restaurantId) k
  || starts_with (product_prefix restaurantId) k
  || starts_with (inventory_prefix restaurantId) k
  || starts_with (sales_prefix restaurantId) k.

(** The keys a request may write: those under its restaurant id and, for a
    signup, the index key of the email. *)
Definition footprint (req : request) (k : string) : bool :=
  own_key (request_restaurant req) k
  || match req with
     | Signup _ _ email _ _ _ => String.eqb k (email_key email)
     | _ => false
     end.

Definition is_signup (req : request) : bool :=
  match req with
  | Signup _ _ _ _ _ _ => true
  | _ => false
  end.

(** How the value under one key may change over a request: a table stays a
    table, with its number unless a signup provisions it anew; a table
    appears only by a signup; an inventory record stays one, with its
    ingredient name and unit. *)
Definition step_ok (signup : bool) (old new : option value) : Prop :=
  (∀ t, old = Some (VTable t) →
     ∃ t', new = Some (VTable t')
           ∧ (signup = false → Table.number t' = Table.number t))
  ∧ (∀ t', new = Some (VTable t') →
       signup = true ∨ ∃ t, old = Some (VTable t))
  ∧ (∀ i, old = Some (VInventory i) →
       ∃ quantity,
         new = Some (VInventory
                       (Inventory.mk (Inventory.ingredient i) quantity
                          (Inventory.unit i)))).

(** The effect of a request with footprint [fp] that took the store from
    [kv] to [kv']. *)
Definition effect (fp : string → bool) (signup : bool) (kv kv' : store)
    : Prop :=
  ∀ k, step_ok signup (kv !! k) (kv' !! k)
       ∧ (fp k = false → kv' !! k = kv !! k).

(** ** Definitions used by the further statements *)

(** The restaurant record after [restaurant.managerPassword = password]. *)
Definition with_manager_password (r : Restaurant.t) (password : string)
    : Restaurant.t :=
  Restaurant.mk (Restaurant.id r) (Restaurant.email r) (Restaurant.password r)
    (Restaurant.name r) (Restaurant.paid r) password (Restaurant.createdAt r).

(** The 401 of [POST /verify-manager]. *)
Definition invalid_manager_password : response :=
  Json (Error "Invalid manager password") 401.

(** The product ids of the lines of a cart, in order. *)
Definition cart_ids (cart : list CartItem.t) : list string :=
  map (λ item, Product.id (CartItem.product item)) cart.

(** The prices of the lines of a cart times their quantities, added from
    0 in cart order. *)
Definition cartTotal (cart : list CartItem.t) : float :=
  foldl (λ sum line,
           (sum + Product.price (CartItem.product line)
                  * CartItem.quantity line)%float)
    0%float cart.

(** ** More sample data *)



(** A store with one registered restaurant and nothing else. *)
Definition sample_registry : store :=
  <[restaurant_key "7d9f" :=
      VRestaurant
        (new_restaurant "7d9f" 1700000000000 "ana@example.com" "s3cret"
           "Cantina")]> ∅.

(** An evening at restaurant [r1]: two orders, one of them a delivery,
    and two tables closed. *)
Definition sample_service : list request :=
  [ PlaceOrder "o2" 1700000000600 "r1" 3 [Item.mk "p1" "Burger" 2 25 "food"];
    PlaceOrder "o3" 1700000000700 "r1" 0 [Item.mk "p1" "Burger" 1 25 "food"];
    MarkReady "r1" "o2";
    CloseTable "2024-03-09" "r1" 3 50;
    CloseTable "2024-03-09" "r1" 4 10 ].

(** Requests that order from, restock and then drop the one product. *)
Definition sample_kitchen_service : list request :=
  [ PlaceOrder "o1" 1700000000600 "r1" 3 [Item.mk "p1" "Burger" 3 25 "food"];
    AdjustInventory "r1" "bun" 10 "dozen";
    DeleteProduct "r1" "p1";
    CloseTable "2024-03-09" "r1" 3 75 ].

(** Two products and a cart with a line for each. *)
Definition sample_burger : Product.t :=
  Product.mk "p1" "Burger" 25 "food" [Ingredient.mk "bun" 1 "un"].

Definition sample_juice : Product.t :=
  Product.mk "p2" "Juice" 8 "drink" [].

Definition sample_cart : list CartItem.t :=
  [CartItem.mk sample_burger 2; CartItem.mk sample_juice 1].

(** * Properties *)

(** ** Keys *)

Ltac unfold_keys :=
  unfold restaurant_key, email_key, table_key, table_prefix, order_key,
    product_key, inventory_key, sales_key in *.

(** Keys of different kinds differ in their first segment. *)
Ltac key_discr := unfold_keys; simpl; discriminate.

Lemma table_key_inj restaurantId n m :
  table_key restaurantId n = table_key restaurantId m → n = m.
Proof.
  unfold_keys. intros H.
  by do 3 apply (inj (String.append _)) in H; apply (inj pretty) in H.
Qed.

Lemma order_key_inj restaurantId a b :
  order_key restaurantId a = order_key restaurantId b → a = b.
Proof.
  unfold_keys. intros H.
  by do 3 apply (inj (String.append _)) in H.
Qed.

Lemma inventory_key_inj restaurantId a b :
  inventory_key restaurantId a = inventory_key restaurantId b → a = b.
Proof.
  unfold_keys. intros H.
  by do 3 apply (inj (String.append _)) in H.
Qed.

(** ** The key scheme is an invariant *)

Lemma wf_empty : wf ∅.
Proof. apply map_Forall_empty. Qed.

Lemma wf_insert k v (kv : store) :
  kind_ok k v = true → wf kv → wf (<[k:=v]> kv).
Proof. intros. by apply map_Forall_insert_2. Qed.

Lemma wf_delete k (kv : store) : wf kv → wf (delete k kv).
Proof. intros. by apply map_Forall_delete. Qed.

Lemma wf_lookup (kv : store) k v :
  wf kv → kv !! k = Some v → kind_ok k v = true.
Proof. intros Hwf Hk. exact (Hwf k v Hk). Qed.

(** In a store that follows the key scheme, a key of a given template holds
    an object of the matching kind. *)
Ltac kind_inv H :=
  apply wf_lookup in H; [|assumption];
  unfold kind_ok in H; unfold_keys;
  match type of H with
  | starts_with (kind_prefix ?v) _ = true =>
      destruct v; simpl in H; try discriminate H; eauto
  end.

(** A written key has the kind of the value written under it. *)
Ltac kind_solve := unfold kind_ok; unfold_keys; reflexivity.

Lemma wf_table_key (kv : store) restaurantId n v :
  wf kv → kv !! table_key restaurantId n = Some v → ∃ t, v = VTable t.
Proof. intros Hwf H. kind_inv H. Qed.

Lemma wf_order_key (kv : store) restaurantId orderId v :
  wf kv → kv !! order_key restaurantId orderId = Some v → ∃ o, v = VOrder o.
Proof. intros Hwf H. kind_inv H. Qed.

Lemma wf_product_key (kv : store) restaurantId productId v :
  wf kv → kv !! product_key restaurantId productId = Some v →
  ∃ p, v = VProduct p.
Proof. intros Hwf H. kind_inv H. Qed.

Lemma wf_inventory_key (kv : store) restaurantId g v :
  wf kv → kv !! inventory_key restaurantId g = Some v → ∃ i, v = VInventory i.
Proof. intros Hwf H. kind_inv H. Qed.

Lemma wf_sales_key (kv : store) restaurantId day v :
  wf kv → kv !! sales_key restaurantId day = Some v → ∃ s, v = VSales s.
Proof. intros Hwf H. kind_inv H. Qed.

Lemma wf_restaurant_key (kv : store) restaurantId v :
  wf kv → kv !! restaurant_key restaurantId = Some v →
  (∃ r, v = VRestaurant r) ∨ (∃ s, v = VId s).
Proof. intros Hwf H. kind_inv H. Qed.

(** ** Kitchen confirmation *)

(** C7. In a store laid out by the key scheme, [markReady] answers 404
    exactly when no order is stored under the restaurant and order id, and
    then changes nothing.  When the order exists the call succeeds and
    stores the order with status ["ready"] and every other field as it
    was; calling it again succeeds too and leaves that store as it is. *)
Theorem markReady_ready_idempotent (kv : store) restaurantId orderId :
  wf kv →
  ((∃ r kv', markReady restaurantId orderId kv = Some (r, kv')
             ∧ status r = 404)
     ↔ ¬ ∃ o, kv !! order_key restaurantId orderId = Some (VOrder o))
  ∧ (kv !! order_key restaurantId orderId = None →
     markReady restaurantId orderId kv = Some (order_not_found, kv))
  ∧ (∀ o, kv !! order_key restaurantId orderId = Some (VOrder o) →
     ∃ kv1,
       markReady restaurantId orderId kv = Some (ok Success, kv1)
       ∧ kv1 = <[order_key restaurantId orderId := VOrder (ready o)]> kv
       ∧ kv1 !! order_key restaurantId orderId = Some (VOrder (ready o))
       ∧ Order.status (ready o) = "ready"
       ∧ markReady restaurantId orderId kv1 = Some (ok Success, kv1)).
Proof.
  intros Hwf. unfold markReady, order_not_found.
  destruct (kv !! order_key restaurantId orderId) as [v|] eqn:Hk.
  - destruct (wf_order_key _ _ _ _ Hwf Hk) as [o ->].
    split; [|split]; [|done|].
    + split; [|intros []; eauto].
      intros (r & kv' & [= <- <-] & Hs). discriminate Hs.
    + intros o' [= <-]. eexists. split; [done|].
      rewrite lookup_insert_eq. repeat split.
      by rewrite insert_insert_eq.
  - split; [|split]; [|done|done].
    split; [intros _ [o Ho]; done|]. intros _. by eexists _, _.
Qed.

Lemma markReady_ready_idempotent_witness :
  ∃ kv1,
    markReady "r1" "o1" sample_store = Some (ok Success, kv1)
    ∧ kv1 !! order_key "r1" "o1" = Some (VOrder (ready sample_order))
    ∧ markReady "r1" "o1" kv1 = Some (ok Success, kv1).
Proof.
  assert (Hwf : wf sample_store) by (apply (bool_decide_unpack _); vm_compute; exact I).
  destruct (markReady_ready_idempotent sample_store "r1" "o1" Hwf)
    as (_ & _ & H).
  destruct (H sample_order) as (kv1 & ? & _ & ? & _ & ?);
    [vm_compute; reflexivity|].
  by exists kv1.
Defined.

(** ** Inventory adjustment *)

(** C8. When no inventory record is stored for the ingredient,
    [adjustInventory] stores a record with the given unit whose quantity is
    the delta added to 0.  Adjusting a fresh ingredient by 100 and then by
    -40 (whatever unit the second call names) leaves a stored quantity of
    exactly 60. *)
Theorem adjustInventory_fresh_roundtrip (kv : store) restaurantId ingredient
    unit unit' :
  kv !! inventory_key restaurantId ingredient = None →
  (∀ delta,
     adjustInventory restaurantId ingredient delta unit kv
     = Some (ok Success,
             <[inventory_key restaurantId ingredient :=
                 VInventory (Inventory.mk ingredient (0 + delta)%float unit)]>
               kv))
  ∧ ∃ kv1 kv2,
      adjustInventory restaurantId ingredient 100 unit kv
      = Some (ok Success, kv1)
      ∧ adjustInventory restaurantId ingredient (-40) unit' kv1
        = Some (ok Success, kv2)
      ∧ kv2 !! inventory_key restaurantId ingredient
        = Some (VInventory (Inventory.mk ingredient 60 unit)).
Proof.
  intros Hfresh.
  assert (Hadj : ∀ delta,
    adjustInventory restaurantId ingredient delta unit kv
    = Some (ok Success,
            <[inventory_key restaurantId ingredient :=
                VInventory (Inventory.mk ingredient (0 + delta)%float unit)]>
              kv)).
  { intros delta. unfold adjustInventory. by rewrite Hfresh. }
  split; [exact Hadj|].
  eexists _, _. split; [apply Hadj|].
  unfold adjustInventory at 1. rewrite lookup_insert_eq. simpl.
  split; [reflexivity|]. by rewrite lookup_insert_eq.
Qed.

Lemma adjustInventory_fresh_roundtrip_witness :
  ∃ kv1 kv2,
    adjustInventory "r1" "flour" 100 "kg" ∅ = Some (ok Success, kv1)
    ∧ adjustInventory "r1" "flour" (-40) "g" kv1 = Some (ok Success, kv2)
    ∧ kv2 !! inventory_key "r1" "flour"
      = Some (VInventory (Inventory.mk "flour" 60 "kg")).
Proof.
  apply (adjustInventory_fresh_roundtrip ∅ "r1" "flour" "kg" "g").
  reflexivity.
Defined.

(** ** Closing a table *)

Lemma lookup_delete_orders restaurantId (orderIds : list string) (kv : store) k :
  foldl (λ kv orderId, delete (order_key restaurantId orderId) kv) kv orderIds
    !! k
  = if decide (k ∈ order_key restaurantId <$> orderIds) then None else kv !! k.
Proof.
  revert kv. induction orderIds as [|orderId orderIds IH]; intros kv.
  - rewrite fmap_nil, decide_False by apply not_elem_of_nil. done.
  - cbn [foldl]. rewrite IH, fmap_cons.
    destruct (decide (k = order_key restaurantId orderId)) as [->|Hne].
    + rewrite lookup_delete_eq, (decide_True (P := _ ∈ _ :: _)) by left.
      by case_decide.
    + rewrite lookup_delete_ne by done.
      destruct (decide (k ∈ order_key restaurantId <$> orderIds)) as [Hin|Hin].
      * by rewrite decide_True by (by right).
      * rewrite decide_False; [done|].
        by intros [?|?]%elem_of_cons.
Qed.

(** C1. In a store laid out by the key scheme, closing a table that does
    not exist answers 404 and changes nothing.  Closing an existing table
    succeeds; afterwards no order named in the table's list is stored, the
    table is stored with an empty list (so listing its orders gives the
    empty sequence), the day's sales record has the same date, the total it
    had before (0 when there was none) plus [subtotal * 1.1], and the count
    it had before (0 when there was none) plus 1, and every other key holds
    what it held.  The factor is written out: [0x1.199999999999ap+0] is
    the binary64 value of the literal [1.1]. *)
Theorem closeTable_clears_and_records (kv : store) today restaurantId
    tableNumber subtotal :
  wf kv →
  (kv !! table_key restaurantId tableNumber = None →
   closeTable today restaurantId tableNumber subtotal kv
   = Some (table_not_found, kv))
  ∧ (∀ t, kv !! table_key restaurantId tableNumber = Some (VTable t) →
     let before := sales_before today (kv !! sales_key restaurantId today) in
     ∃ kv',
       closeTable today restaurantId tableNumber subtotal kv
       = Some (ok Success, kv')
       ∧ (∀ orderId, orderId ∈ Table.orders t →
          kv' !! order_key restaurantId orderId = None)
       ∧ kv' !! table_key restaurantId tableNumber
         = Some (VTable (Table.mk (Table.number t) []))
       ∧ listTableOrders restaurantId tableNumber kv'
         = Some (ok (OrderList []), kv')
       ∧ kv' !! sales_key restaurantId today
         = Some (VSales
                   (Sales.mk (Sales.date before)
                      (Sales.total before + subtotal * 0x1.199999999999ap+0)%float
                      (Sales.count before + 1)%float))
       ∧ (∀ k, k ≠ table_key restaurantId tableNumber →
          k ≠ sales_key restaurantId today →
          k ∉ order_key restaurantId <$> Table.orders t →
          kv' !! k = kv !! k)).
Proof.
  intros Hwf. split.
  { intros Hk. unfold closeTable. by rewrite Hk. }
  intros t Hk before. unfold closeTable, service_factor. rewrite Hk.
  set (kv1 := foldl _ kv (Table.orders t)).
  set (tkey := table_key restaurantId tableNumber).
  set (skey := sales_key restaurantId today).
  assert (Hts : tkey ≠ skey) by (subst tkey skey; key_discr).
  assert (Hs : <[tkey:=VTable (Table.mk (Table.number t) [])]> kv1 !! skey
               = kv !! skey).
  { rewrite lookup_insert_ne; [|done]. subst kv1.
    rewrite lookup_delete_orders. case_decide as Hin; [|done].
    apply list_elem_of_fmap in Hin as (orderId & Heq & _).
    exfalso. revert Heq. subst skey. key_discr. }
  rewrite Hs. subst before.
  assert (∃ sales,
    match kv !! skey with
    | None => Some (Sales.mk today 0 0)
    | Some (VSales sales) => Some sales
    | Some _ => None
    end = Some sales
    ∧ sales = sales_before today (kv !! skey)) as (sales & -> & ->).
  { destruct (kv !! skey) as [v|] eqn:Hv; [|by eexists].
    destruct (wf_sales_key _ _ _ _ Hwf Hv) as [s ->]. by eexists. }
  simpl. eexists. split; [reflexivity|].
  assert (Htable :
    <[skey:=VSales
              (Sales.mk (Sales.date (sales_before today (kv !! skey)))
                 (Sales.total (sales_before today (kv !! skey))
                  + subtotal * 0x1.199999999999ap+0)%float
                 (Sales.count (sales_before today (kv !! skey)) + 1)%float)]>
      (<[tkey:=VTable (Table.mk (Table.number t) [])]> kv1) !! tkey
    = Some (VTable (Table.mk (Table.number t) []))).
  { rewrite lookup_insert_ne; [|done]. by rewrite lookup_insert_eq. }
  split; [|split; [|split; [|split]]].
  - intros orderId Hin.
    rewrite !lookup_insert_ne; [|subst tkey; key_discr|subst skey; key_discr].
    subst kv1. rewrite lookup_delete_orders. case_decide as Hn; [done|].
    exfalso. apply Hn, list_elem_of_fmap. eauto.
  - exact Htable.
  - unfold listTableOrders. fold tkey. by rewrite Htable.
  - by rewrite lookup_insert_eq.
  - intros k Ht Hsk Ho. rewrite !lookup_insert_ne; [|done..].
    subst kv1. rewrite lookup_delete_orders. by case_decide.
Qed.

Lemma closeTable_clears_and_records_witness :
  ∃ kv',
    closeTable "2024-03-09" "r1" 3 58 sample_store = Some (ok Success, kv')
    ∧ kv' !! order_key "r1" "o1" = None
    ∧ kv' !! table_key "r1" 3 = Some (VTable (Table.mk 3 []))
    ∧ kv' !! sales_key "r1" "2024-03-09"
      (* 58 * 1.1 is 63.800000000000004 in binary64 *)
      = Some (VSales (Sales.mk "2024-03-09" 0x1.fe66666666667p+5 1)).
Proof.
  assert (Hwf : wf sample_store)
    by (apply (bool_decide_unpack _); vm_compute; exact I).
  destruct (closeTable_clears_and_records sample_store "2024-03-09" "r1" 3 58
              Hwf) as [_ H].
  destruct (H (Table.mk 3 ["o1"])) as (kv' & ? & Ho & ? & _ & ? & _);
    [vm_compute; reflexivity|].
  exists kv'. repeat split; try done. apply Ho. simpl. left.
Defined.

(** ** Inventory deduction *)

Lemma deductIngredient_spec restaurantId item ingredient (kv : store) :
  wf kv →
  ∃ kv',
    deductIngredient restaurantId item ingredient kv = Some kv'
    ∧ wf kv'
    ∧ (∀ k, k ≠ inventory_key restaurantId (Ingredient.name ingredient) →
       kv' !! k = kv !! k)
    ∧ kv' !! inventory_key restaurantId (Ingredient.name ingredient)
      = deduct (amount item ingredient)
          <$> kv !! inventory_key restaurantId (Ingredient.name ingredient).
Proof.
  intros Hwf. unfold deductIngredient.
  destruct (kv !! inventory_key _ _) as [v|] eqn:Hv.
  - destruct (wf_inventory_key _ _ _ _ Hwf Hv) as [i ->].
    eexists. split; [done|]. split; [|split].
    + apply wf_insert; [|done]. exact (wf_lookup _ _ _ Hwf Hv).
    + intros k Hk. by rewrite lookup_insert_ne.
    + by rewrite lookup_insert_eq.
  - exists kv. by rewrite Hv.
Qed.

Lemma after_deductions_app a1 a2 v :
  after_deductions (a1 ++ a2) v = after_deductions a2 (after_deductions a1 v).
Proof. apply foldl_app. Qed.

Lemma amounts_for_app g ds1 ds2 :
  amounts_for g (ds1 ++ ds2) = amounts_for g ds1 ++ amounts_for g ds2.
Proof. unfold amounts_for. by rewrite filter_app, fmap_app. Qed.

Lemma amounts_for_cons g name d ds :
  amounts_for g ((name, d) :: ds)
  = if decide (name = g) then d :: amounts_for g ds else amounts_for g ds.
Proof.
  unfold amounts_for. rewrite filter_cons. simpl. by case_decide.
Qed.

Lemma deducted_start restaurantId (kv0 : store) :
  wf kv0 → deducted restaurantId kv0 [] kv0.
Proof. by intros Hwf. Qed.

Lemma deducted_step restaurantId kv0 ds kv item ingredient :
  deducted restaurantId kv0 ds kv →
  ∃ kv',
    deductIngredient restaurantId item ingredient kv = Some kv'
    ∧ deducted restaurantId kv0
        (ds ++ [(Ingredient.name ingredient, amount item ingredient)]) kv'.
Proof.
  intros (Hwf & Hframe & Hinv).
  destruct (deductIngredient_spec restaurantId item ingredient kv Hwf)
    as (kv' & Hrun & Hwf' & Hother & Hthis).
  exists kv'. split; [done|]. split; [done|]. split.
  - intros k Hk. rewrite Hother; [by apply Hframe|apply Hk].
  - intros g. rewrite amounts_for_app, after_deductions_app, <-Hinv.
    rewrite amounts_for_cons. case_decide as Hg.
    + subst g. by rewrite Hthis.
    + rewrite Hother; [done|]. intros Heq. by apply inventory_key_inj in Heq.
Qed.

Lemma deductIngredients_spec restaurantId kv0 item ingredients ds kv :
  deducted restaurantId kv0 ds kv →
  ∃ kv',
    for_of (deductIngredient restaurantId item) ingredients kv = Some kv'
    ∧ deducted restaurantId kv0
        (ds ++ ((λ ingredient,
                   (Ingredient.name ingredient, amount item ingredient))
                  <$> ingredients)) kv'.
Proof.
  revert ds kv. induction ingredients as [|ingredient ingredients IH];
    intros ds kv Hd; simpl.
  - exists kv. by rewrite app_nil_r.
  - destruct (deducted_step _ _ _ _ item ingredient Hd) as (kv1 & -> & Hd1).
    simpl. destruct (IH _ _ Hd1) as (kv' & Hrun & Hd').
    exists kv'. split; [done|]. by rewrite <-app_assoc in Hd'.
Qed.

Lemma item_deductions_frame restaurantId kv0 ds kv item :
  deducted restaurantId kv0 ds kv →
  item_deductions restaurantId kv item = item_deductions restaurantId kv0 item.
Proof.
  intros (_ & Hframe & _). unfold item_deductions.
  rewrite Hframe; [done|]. intros g. key_discr.
Qed.

Lemma deductItem_spec restaurantId kv0 ds kv item :
  deducted restaurantId kv0 ds kv →
  ∃ kv',
    deductItem restaurantId item kv = Some kv'
    ∧ deducted restaurantId kv0
        (ds ++ item_deductions restaurantId kv0 item) kv'.
Proof.
  intros Hd. rewrite <-(item_deductions_frame _ _ _ _ _ Hd).
  unfold deductItem, item_deductions.
  destruct (kv !! product_key _ _) as [v|] eqn:Hv.
  - destruct Hd as (Hwf & ?).
    destruct (wf_product_key _ _ _ _ Hwf Hv) as [p ->].
    by apply deductIngredients_spec.
  - exists kv. by rewrite app_nil_r.
Qed.

Lemma deductItems_spec restaurantId kv0 items ds kv :
  deducted restaurantId kv0 ds kv →
  ∃ kv',
    for_of (deductItem restaurantId) items kv = Some kv'
    ∧ deducted restaurantId kv0
        (ds ++ order_deductions restaurantId kv0 items) kv'.
Proof.
  revert ds kv. induction items as [|item items IH]; intros ds kv Hd; simpl.
  - exists kv. by rewrite app_nil_r.
  - destruct (deductItem_spec _ _ _ _ item Hd) as (kv1 & -> & Hd1). simpl.
    destruct (IH _ _ Hd1) as (kv' & Hrun & Hd').
    exists kv'. split; [done|]. by rewrite <-app_assoc in Hd'.
Qed.

Lemma after_deductions_None amounts : after_deductions amounts None = None.
Proof. induction amounts; [done|]. done. Qed.

Lemma after_deductions_inventory amounts i :
  after_deductions amounts (Some (VInventory i))
  = Some (VInventory
            (Inventory.mk (Inventory.ingredient i)
               (foldl PrimFloat.sub (Inventory.quantity i) amounts)
               (Inventory.unit i))).
Proof.
  revert i. induction amounts as [|d amounts IH]; intros i; [by destruct i|].
  unfold after_deductions in *. simpl. by rewrite IH.
Qed.

(** ** Placing an order *)

Lemma order_linked_wf orderId now restaurantId tableNumber items (kv : store) :
  wf kv → wf (order_linked orderId now restaurantId tableNumber items kv).
Proof.
  intros Hwf. unfold order_linked.
  assert (wf (<[order_key restaurantId orderId :=
                  VOrder (new_order orderId now restaurantId tableNumber
                            items)]> kv))
    by (apply wf_insert; [kind_solve|done]).
  destruct (kv !! table_key _ _) as [[]|]; try done.
  apply wf_insert; [kind_solve|done].
Qed.

Lemma order_linked_frame orderId now restaurantId tableNumber items
    (kv : store) k :
  k ≠ order_key restaurantId orderId →
  k ≠ table_key restaurantId tableNumber →
  order_linked orderId now restaurantId tableNumber items kv !! k = kv !! k.
Proof.
  intros Ho Ht. unfold order_linked.
  destruct (kv !! table_key _ _) as [[]|];
    by rewrite ?(lookup_insert_ne _ (table_key _ _)), lookup_insert_ne.
Qed.

Lemma order_linked_deductions orderId now restaurantId tableNumber items
    (kv : store) items' :
  order_deductions restaurantId
    (order_linked orderId now restaurantId tableNumber items kv) items'
  = order_deductions restaurantId kv items'.
Proof.
  unfold order_deductions.
  induction items' as [|item items' IH]; [done|].
  rewrite !bind_cons, IH. f_equal.
  unfold item_deductions. rewrite order_linked_frame; [done|key_discr..].
Qed.

(** [POST /orders] completes in every store laid out by the key scheme,
    and its inventory loops end in the state [deducted] describes. *)
Lemma placeOrder_run orderId now restaurantId tableNumber items (kv : store) :
  wf kv →
  ∃ kv',
    placeOrder orderId now restaurantId tableNumber items kv
    = Some (ok (SuccessId orderId), kv')
    ∧ deducted restaurantId
        (order_linked orderId now restaurantId tableNumber items kv)
        (order_deductions restaurantId kv items) kv'.
Proof.
  intros Hwf.
  pose proof (order_linked_wf orderId now restaurantId tableNumber items kv Hwf)
    as Hwf0.
  destruct (deductItems_spec restaurantId _ items [] _
              (deducted_start restaurantId _ Hwf0)) as (kv' & Hrun & Hd).
  rewrite app_nil_l, order_linked_deductions in Hd.
  exists kv'. split; [|done].
  unfold placeOrder. rewrite lookup_insert_ne by key_discr.
  unfold order_linked, new_order, with_order in Hrun.
  destruct (kv !! table_key _ _) as [v|] eqn:Hv.
  - destruct (wf_table_key _ _ _ _ Hwf Hv) as [t ->]. simpl.
    by rewrite Hrun.
  - simpl. by rewrite Hrun.
Qed.

Lemma fetchOrders_app restaurantId l1 l2 (kv : store) :
  fetchOrders restaurantId (l1 ++ l2) kv
  = orders1 ← fetchOrders restaurantId l1 kv;
    orders2 ← fetchOrders restaurantId l2 kv;
    Some (orders1 ++ orders2).
Proof.
  induction l1 as [|orderId l1 IH]; simpl.
  - by destruct (fetchOrders restaurantId l2 kv).
  - destruct (kv !! order_key _ _) as [[]|]; try done.
    rewrite IH. destruct (fetchOrders restaurantId l1 kv); simpl; [|done].
    by destruct (fetchOrders restaurantId l2 kv).
Qed.

Lemma fetchOrders_total restaurantId orderIds (kv : store) :
  wf kv → ∃ orders, fetchOrders restaurantId orderIds kv = Some orders.
Proof.
  intros Hwf. induction orderIds as [|orderId orderIds [orders IH]]; simpl.
  - by eexists.
  - destruct (kv !! order_key _ _) as [v|] eqn:Hv.
    + destruct (wf_order_key _ _ _ _ Hwf Hv) as [o ->].
      rewrite IH. by eexists.
    + by eexists.
Qed.

(** C2. In a store laid out by the key scheme, [placeOrder] succeeds with
    the new order id and stores under it an order with that id, the given
    restaurant, table number and items, status ["pending"] and the current
    time.  When the table is stored, its list afterwards is its list before
    with the new id appended at the end, and listing the table's orders
    then ends with the new order.  When no table is stored under the
    number, the call still succeeds, the order is stored all the same, and
    there is still no table. *)
Theorem placeOrder_creates_and_links (kv : store) orderId now restaurantId
    tableNumber items :
  wf kv →
  ∃ kv',
    placeOrder orderId now restaurantId tableNumber items kv
    = Some (ok (SuccessId orderId), kv')
    ∧ kv' !! order_key restaurantId orderId
      = Some (VOrder
                (Order.mk orderId restaurantId tableNumber items "pending"
                   now))
    ∧ (∀ t, kv !! table_key restaurantId tableNumber = Some (VTable t) →
       kv' !! table_key restaurantId tableNumber
       = Some (VTable
                 (Table.mk (Table.number t) (Table.orders t ++ [orderId])))
       ∧ ∃ earlier,
           listTableOrders restaurantId tableNumber kv'
           = Some (ok (OrderList
                         (earlier
                          ++ [Order.mk orderId restaurantId tableNumber items
                                "pending" now])),
                   kv'))
    ∧ (kv !! table_key restaurantId tableNumber = None →
       kv' !! table_key restaurantId tableNumber = None).
Proof.
  intros Hwf.
  destruct (placeOrder_run orderId now restaurantId tableNumber items kv Hwf)
    as (kv' & Hrun & Hwf' & Hframe & _).
  exists kv'. split; [done|].
  assert (Horder : kv' !! order_key restaurantId orderId
    = Some (VOrder
              (Order.mk orderId restaurantId tableNumber items "pending" now))).
  { rewrite Hframe by (intros g; key_discr). unfold order_linked.
    destruct (kv !! table_key _ _) as [[]|];
      rewrite ?(lookup_insert_ne _ (table_key _ _)) by key_discr;
      by rewrite lookup_insert_eq. }
  split; [done|]. split.
  - intros t Ht.
    assert (Htable : kv' !! table_key restaurantId tableNumber
      = Some (VTable
                (Table.mk (Table.number t) (Table.orders t ++ [orderId])))).
    { rewrite Hframe by (intros g; key_discr). unfold order_linked.
      rewrite Ht. by rewrite lookup_insert_eq. }
    split; [done|].
    unfold listTableOrders. rewrite Htable. simpl.
    rewrite fetchOrders_app. simpl. rewrite Horder.
    destruct (fetchOrders_total restaurantId (Table.orders t) kv' Hwf')
      as [earlier ->].
    by exists earlier.
  - intros Ht. rewrite Hframe by (intros g; key_discr). unfold order_linked.
    rewrite Ht. by rewrite lookup_insert_ne by key_discr.
Qed.

Lemma placeOrder_creates_and_links_witness :
  ∃ kv',
    placeOrder "o2" 1700000000500 "r1" 3 sample_items sample_store
    = Some (ok (SuccessId "o2"), kv')
    ∧ kv' !! order_key "r1" "o2"
      = Some (VOrder
                (Order.mk "o2" "r1" 3 sample_items "pending" 1700000000500))
    ∧ kv' !! table_key "r1" 3 = Some (VTable (Table.mk 3 ["o1"; "o2"])).
Proof.
  assert (Hwf : wf sample_store)
    by (apply (bool_decide_unpack _); vm_compute; exact I).
  destruct (placeOrder_creates_and_links sample_store "o2" 1700000000500 "r1"
              3 sample_items Hwf) as (kv' & ? & ? & Ht & _).
  destruct (Ht (Table.mk 3 ["o1"])) as [? _]; [vm_compute; reflexivity|].
  by exists kv'.
Defined.

(** C3. In a store laid out by the key scheme, [placeOrder] succeeds, and
    for every ingredient name: when no inventory record is stored under it
    there is none afterwards; when one is stored, the record afterwards has
    the same name and unit and the quantity left by subtracting from the
    stored quantity, one after the other in loop order, the amount
    [ingredient.quantity * item.quantity] of every ingredient with that
    name of every item whose product is stored.  Nothing floors the result:
    ordering three burgers of one bun each with two buns in stock leaves
    a bun quantity of -1. *)
Theorem placeOrder_deducts_inventory :
  (∀ (kv : store) orderId now restaurantId tableNumber items,
     wf kv →
     ∃ kv',
       placeOrder orderId now restaurantId tableNumber items kv
       = Some (ok (SuccessId orderId), kv')
       ∧ ∀ g,
           (kv !! inventory_key restaurantId g = None →
            kv' !! inventory_key restaurantId g = None)
           ∧ (∀ i, kv !! inventory_key restaurantId g = Some (VInventory i) →
              kv' !! inventory_key restaurantId g
              = Some (VInventory
                        (Inventory.mk (Inventory.ingredient i)
                           (foldl PrimFloat.sub (Inventory.quantity i)
                              (amounts_for g
                                 (order_deductions restaurantId kv items)))
                           (Inventory.unit i)))))
  ∧ (∃ kv',
       placeOrder "o1" 1700000000000 "r1" 3
         [Item.mk "p1" "Burger" 3 25 "food"] sample_kitchen
       = Some (ok (SuccessId "o1"), kv')
       ∧ kv' !! inventory_key "r1" "bun"
         = Some (VInventory (Inventory.mk "bun" (-1) "un"))
       ∧ (-1 <? 0)%float = true).
Proof.
  assert (Hgen : ∀ (kv : store) orderId now restaurantId tableNumber items,
     wf kv →
     ∃ kv',
       placeOrder orderId now restaurantId tableNumber items kv
       = Some (ok (SuccessId orderId), kv')
       ∧ ∀ g,
           (kv !! inventory_key restaurantId g = None →
            kv' !! inventory_key restaurantId g = None)
           ∧ (∀ i, kv !! inventory_key restaurantId g = Some (VInventory i) →
              kv' !! inventory_key restaurantId g
              = Some (VInventory
                        (Inventory.mk (Inventory.ingredient i)
                           (foldl PrimFloat.sub (Inventory.quantity i)
                              (amounts_for g
                                 (order_deductions restaurantId kv items)))
                           (Inventory.unit i))))).
  { intros kv orderId now restaurantId tableNumber items Hwf.
    destruct (placeOrder_run orderId now restaurantId tableNumber items kv Hwf)
      as (kv' & Hrun & _ & _ & Hinv).
    exists kv'. split; [done|]. intros g.
    rewrite Hinv, order_linked_frame by key_discr.
    split.
    - intros ->. apply after_deductions_None.
    - intros i ->. apply after_deductions_inventory. }
  split; [exact Hgen|].
  assert (Hwf : wf sample_kitchen)
    by (apply (bool_decide_unpack _); vm_compute; exact I).
  destruct (Hgen sample_kitchen "o1" 1700000000000%float "r1" 3
              [Item.mk "p1" "Burger" 3 25 "food"] Hwf) as (kv' & Hrun & Hinv).
  exists kv'. split; [done|]. split; [|reflexivity].
  destruct (Hinv "bun") as [_ Hbun].
  by rewrite (Hbun (Inventory.mk "bun" 2 "un")) by (vm_compute; reflexivity).
Qed.

Lemma placeOrder_deducts_inventory_witness :
  ∃ kv',
    placeOrder "o7" 1700000000999 "r1" 3
      [Item.mk "p1" "Burger" 2 25 "food"; Item.mk "p1" "Burger" 1 25 "food"]
      sample_kitchen
    = Some (ok (SuccessId "o7"), kv')
    ∧ kv' !! inventory_key "r1" "beef"
      = Some (VInventory (Inventory.mk "beef" 400 "g")).
Proof.
  assert (Hwf : wf sample_kitchen)
    by (apply (bool_decide_unpack _); vm_compute; exact I).
  destruct placeOrder_deducts_inventory as [Hgen _].
  destruct (Hgen sample_kitchen "o7" 1700000000999%float "r1" 3
              [Item.mk "p1" "Burger" 2 25 "food";
               Item.mk "p1" "Burger" 1 25 "food"] Hwf)
    as (kv' & Hrun & Hinv).
  exists kv'. split; [done|].
  destruct (Hinv "beef") as [_ Hbeef].
  rewrite (Hbeef (Inventory.mk "beef" 1000 "g")) by (vm_compute; reflexivity).
  vm_compute. reflexivity.
Defined.

(** ** Completing an order *)

Lemma fetchOrders_delete restaurantId orderId orderIds (kv : store) :
  fetchOrders restaurantId orderIds (delete (order_key restaurantId orderId) kv)
  = fetchOrders restaurantId (filter (λ id, id ≠ orderId) orderIds) kv.
Proof.
  induction orderIds as [|id orderIds IH]; [done|].
  rewrite filter_cons. simpl. case_decide as Hid.
  - rewrite lookup_delete_ne
      by (intros Heq; by apply order_key_inj in Heq).
    simpl. by rewrite IH.
  - subst id. by rewrite lookup_delete_eq.
Qed.

(** C9. In a store laid out by the key scheme, [completeOrder] succeeds
    and removes the record under the order's key and nothing else: every
    other key, every table among them, holds what it held, so a table that
    lists the order still lists it although the id no longer resolves.
    Listing the orders of such a table afterwards succeeds and returns
    what the ids of its list other than the completed one resolve to. *)
Theorem completeOrder_leaves_dangling_id (kv : store) restaurantId orderId
    tableNumber t :
  wf kv →
  kv !! table_key restaurantId tableNumber = Some (VTable t) →
  orderId ∈ Table.orders t →
  ∃ kv' remaining,
    completeOrder restaurantId orderId kv = Some (ok Success, kv')
    ∧ kv' = delete (order_key restaurantId orderId) kv
    ∧ kv' !! order_key restaurantId orderId = None
    ∧ (∀ k, k ≠ order_key restaurantId orderId → kv' !! k = kv !! k)
    ∧ (∀ restaurantId' tableNumber',
         kv' !! table_key restaurantId' tableNumber'
         = kv !! table_key restaurantId' tableNumber')
    ∧ kv' !! table_key restaurantId tableNumber = Some (VTable t)
    ∧ listTableOrders restaurantId tableNumber kv'
      = Some (ok (OrderList remaining), kv')
    ∧ fetchOrders restaurantId
        (filter (λ id, id ≠ orderId) (Table.orders t)) kv
      = Some remaining.
Proof.
  intros Hwf Ht _.
  destruct (fetchOrders_total restaurantId
              (filter (λ id, id ≠ orderId) (Table.orders t)) kv Hwf)
    as [remaining Hrem].
  exists (delete (order_key restaurantId orderId) kv), remaining.
  assert (Hframe : ∀ restaurantId' tableNumber',
    delete (order_key restaurantId orderId) kv
      !! table_key restaurantId' tableNumber'
    = kv !! table_key restaurantId' tableNumber').
  { intros. apply lookup_delete_ne. key_discr. }
  split; [done|]. split; [done|]. split; [apply lookup_delete_eq|].
  split; [by intros k Hk; apply lookup_delete_ne|].
  split; [done|]. split; [by rewrite Hframe|]. split; [|done].
  unfold listTableOrders. rewrite Hframe, Ht. simpl.
  by rewrite fetchOrders_delete, Hrem.
Qed.

Lemma completeOrder_leaves_dangling_id_witness :
  ∃ kv',
    completeOrder "r1" "o1" sample_store = Some (ok Success, kv')
    ∧ kv' !! order_key "r1" "o1" = None
    ∧ kv' !! table_key "r1" 3 = Some (VTable (Table.mk 3 ["o1"]))
    ∧ listTableOrders "r1" 3 kv' = Some (ok (OrderList []), kv').
Proof.
  assert (Hwf : wf sample_store)
    by (apply (bool_decide_unpack _); vm_compute; exact I).
  destruct (completeOrder_leaves_dangling_id sample_store "r1" "o1" 3
              (Table.mk 3 ["o1"]) Hwf)
    as (kv' & remaining & ? & _ & ? & _ & _ & ? & Hlist & Hrem);
    [vm_compute; reflexivity|simpl; left|].
  exists kv'. repeat split; try done.
  vm_compute in Hrem. by injection Hrem as <-.
Defined.

(** ** Editing a line item *)

(** C6, counterexample.  A zero quantity with a position past the end of
    the items: the call succeeds and both items are still there.  A nonzero quantity at that
    position: the call fails with status 500 and nothing is set. *)
Lemma updateLineItem_past_the_end :
  sample_store !! order_key "r1" "o1" = Some (VOrder sample_order)
  ∧ length (Order.items sample_order) = 2%nat
  ∧ updateLineItem "r1" "o1" 5 0 sample_store
    = Some (ok Success, sample_store)
  ∧ updateLineItem "r1" "o1" 5 4 sample_store
    = Some (Json (Failure "Failed to update order item") 500, sample_store).
Proof.
  repeat split; vm_compute; reflexivity.
Qed.

(** C6 (amended). In a store laid out by the key scheme, [updateLineItem]
    answers 404 exactly when no order is stored under the ids.  When the
    order exists and [itemIndex] is a position of its items: a quantity
    equal to 0 stores the order without the item at that position, one item
    fewer, the items before it in place and the items after it one
    position down; any other quantity stores the order with the quantity
    of the item at that position replaced and every item in its place. *)
Theorem updateLineItem_in_range (kv : store) restaurantId orderId :
  wf kv →
  ((∃ quantity itemIndex r kv',
      updateLineItem restaurantId orderId itemIndex quantity kv = Some (r, kv')
      ∧ status r = 404)
   ↔ ¬ ∃ o, kv !! order_key restaurantId orderId = Some (VOrder o))
  ∧ (kv !! order_key restaurantId orderId = None →
     ∀ itemIndex quantity,
       updateLineItem restaurantId orderId itemIndex quantity kv
       = Some (order_not_found, kv))
  ∧ (∀ o itemIndex item,
       kv !! order_key restaurantId orderId = Some (VOrder o) →
       0 ≤ itemIndex →
       Order.items o !! Z.to_nat itemIndex = Some item →
       let i := Z.to_nat itemIndex in
       (∀ quantity, (quantity =? 0)%float = true →
          updateLineItem restaurantId orderId itemIndex quantity kv
          = Some (ok Success,
                  <[order_key restaurantId orderId :=
                      VOrder (with_items o (delete i (Order.items o)))]> kv)
          ∧ S (length (delete i (Order.items o))) = length (Order.items o)
          ∧ (∀ j, (j < i)%nat →
               delete i (Order.items o) !! j = Order.items o !! j)
          ∧ (∀ j, (i ≤ j)%nat →
               delete i (Order.items o) !! j = Order.items o !! S j))
       ∧ (∀ quantity, (quantity =? 0)%float = false →
            updateLineItem restaurantId orderId itemIndex quantity kv
            = Some (ok Success,
                    <[order_key restaurantId orderId :=
                        VOrder
                          (with_items o
                             (<[i := setQuantity item quantity]>
                                (Order.items o)))]> kv)
            ∧ length (<[i := setQuantity item quantity]> (Order.items o))
              = length (Order.items o)
            ∧ <[i := setQuantity item quantity]> (Order.items o) !! i
              = Some (setQuantity item quantity)
            ∧ Item.quantity (setQuantity item quantity) = quantity
            ∧ (∀ j, j ≠ i →
                 <[i := setQuantity item quantity]> (Order.items o) !! j
                 = Order.items o !! j))).
Proof.
  intros Hwf. split; [|split].
  - unfold updateLineItem.
    destruct (kv !! order_key restaurantId orderId) as [v|] eqn:Hk.
    + destruct (wf_order_key _ _ _ _ Hwf Hk) as [o ->].
      split; [|intros []; eauto].
      intros (quantity & itemIndex & r & kv' & Hrun & Hs). exfalso.
      destruct (quantity =? 0)%float; [by injection Hrun as <- <-|].
      destruct (index _ _); by injection Hrun as <- <-.
    + split; [intros _ [o Ho]; done|]. intros _.
      by exists 0%float, 0, order_not_found, kv.
  - intros Hk itemIndex quantity. unfold updateLineItem. by rewrite Hk.
  - intros o itemIndex item Hk Hpos Hitem i. subst i.
    pose proof (lookup_lt_Some _ _ _ Hitem) as Hlt. split.
    + intros quantity Hq. unfold updateLineItem. rewrite Hk, Hq.
      assert (splice1 itemIndex (Order.items o)
              = delete (Z.to_nat itemIndex) (Order.items o)) as ->.
      { unfold splice1. destruct (Z.ltb_spec itemIndex 0); [lia|].
        f_equal. lia. }
      split; [done|]. split; [|split].
      * rewrite length_delete by eauto. lia.
      * intros j Hj. by apply list_lookup_delete_lt.
      * intros j Hj. by apply list_lookup_delete_ge.
    + intros quantity Hq. unfold updateLineItem, index. rewrite Hk, Hq.
      destruct (Z.leb_spec 0 itemIndex); [|lia].
      rewrite Hitem. split; [done|]. split; [|split; [|split]].
      * apply length_insert.
      * by apply list_lookup_insert_eq.
      * done.
      * intros j Hj. by apply list_lookup_insert_ne.
Qed.

Lemma updateLineItem_in_range_witness :
  updateLineItem "r1" "o1" 0 0 sample_store
  = Some (ok Success,
          <[order_key "r1" "o1" :=
              VOrder (with_items sample_order
                        [Item.mk "p2" "Juice" 1 8 "drink"])]> sample_store)
  ∧ updateLineItem "r1" "o1" 1 4 sample_store
    = Some (ok Success,
            <[order_key "r1" "o1" :=
                VOrder (with_items sample_order
                          [Item.mk "p1" "Burger" 2 25 "food";
                           Item.mk "p2" "Juice" 4 8 "drink"])]> sample_store).
Proof.
  assert (Hwf : wf sample_store)
    by (apply (bool_decide_unpack _); vm_compute; exact I).
  destruct (updateLineItem_in_range sample_store "r1" "o1" Hwf)
    as (_ & _ & H).
  split.
  - destruct (H sample_order 0 (Item.mk "p1" "Burger" 2 25 "food"))
      as [H0 _]; [vm_compute; reflexivity|lia|reflexivity|].
    by destruct (H0 0%float) as [? _].
  - destruct (H sample_order 1 (Item.mk "p2" "Juice" 1 8 "drink"))
      as [_ H1]; [vm_compute; reflexivity|lia|reflexivity|].
    by destruct (H1 4%float) as [? _].
Defined.

(** ** Signing up *)

Lemma falsy_string_false s : falsy_string s = false ↔ s ≠ "".
Proof. unfold falsy_string. apply String.eqb_neq. Qed.

Lemma falsy_string_true s : falsy_string s = true ↔ s = "".
Proof. unfold falsy_string. apply String.eqb_eq. Qed.

Lemma signup_success restaurantId now email password restaurantName
    (kv : store) :
  email ≠ "" → password ≠ "" → restaurantName ≠ "" →
  from_option truthy false (kv !! email_key email) = false →
  signup restaurantId now email password restaurantName "PAID" kv
  = Some (ok (SuccessId restaurantId),
          registered restaurantId now email password restaurantName kv).
Proof.
  intros He Hp Hn Hfree. unfold signup.
  apply falsy_string_false in He, Hp, Hn. by rewrite He, Hp, Hn, Hfree.
Qed.

Lemma signup_success_inv restaurantId now email password restaurantName
    paymentToken (kv : store) id kv' :
  signup restaurantId now email password restaurantName paymentToken kv
  = Some (ok (SuccessId id), kv') →
  id = restaurantId
  ∧ kv' = registered restaurantId now email password restaurantName kv.
Proof.
  unfold signup.
  destruct (_ || _); [done|]. destruct (negb _); [done|].
  destruct (from_option _ _ _); [done|]. by intros [= <- <-].
Qed.

Lemma provision_tables_unlisted restaurantId (kv : store) k :
  k ∉ table_key restaurantId <$> seqZ 1 10 →
  provision_tables restaurantId kv !! k = kv !! k.
Proof.
  unfold provision_tables. generalize (seqZ 1 10). intros l.
  revert kv. induction l as [|i l IH]; intros kv Hk; [done|].
  rewrite fmap_cons, not_elem_of_cons in Hk. destruct Hk as [Hi Hl].
  cbn [foldl]. rewrite IH by done. by apply lookup_insert_ne.
Qed.

Lemma provision_tables_other restaurantId (kv : store) k :
  (∀ i, k ≠ table_key restaurantId i) →
  provision_tables restaurantId kv !! k = kv !! k.
Proof.
  intros Hk. apply provision_tables_unlisted.
  intros (i & -> & _)%list_elem_of_fmap. by apply (Hk i).
Qed.

Lemma provision_tables_table restaurantId (kv : store) i :
  1 ≤ i ≤ 10 →
  provision_tables restaurantId kv !! table_key restaurantId i
  = Some (VTable (Table.mk i [])).
Proof.
  intros Hi. unfold provision_tables.
  assert (Hin : i ∈ seqZ 1 10) by (apply elem_of_seqZ; lia).
  revert Hin. generalize (seqZ 1 10). intros l.
  induction l as [|j l IH] using rev_ind; intros Hin.
  - by apply elem_of_nil in Hin.
  - rewrite foldl_app. simpl.
    destruct (decide (j = i)) as [->|Hne]; [by rewrite lookup_insert_eq|].
    rewrite lookup_insert_ne
      by (intros Heq; by apply table_key_inj in Heq).
    apply IH. apply elem_of_app in Hin as [|Hin]; [done|].
    by apply list_elem_of_singleton in Hin.
Qed.

(** C4, counterexample.  An empty payment token is not ["PAID"], yet the
    answer is the 400 of the missing-field check, not 402. *)
Lemma signup_empty_token_is_validation_error :
  "" ≠ "PAID"
  ∧ signup "7d9f" 1700000000000 "ana@example.com" "s3cret" "Cantina" "" ∅
    = Some (Json (Error "Missing required fields") 400, ∅).
Proof. split; [discriminate|reflexivity]. Qed.

(** C4 (amended). When any of email, password, name and payment token is
    empty, [register] answers 400 "Missing required fields".  When none is
    empty and the token is not ["PAID"], it answers 402.  Either way the
    store is the store before: no restaurant record is written and the
    email index is as it was.  With token ["PAID"], the other fields not
    empty and no entry under the email's index key, it succeeds with the
    minted id and the index then maps the email to that id. *)
Theorem signup_payment_gate (kv : store) restaurantId now email password
    restaurantName paymentToken :
  (email = "" ∨ password = "" ∨ restaurantName = "" ∨ paymentToken = "" →
   signup restaurantId now email password restaurantName paymentToken kv
   = Some (Json (Error "Missing required fields") 400, kv))
  ∧ (email ≠ "" → password ≠ "" → restaurantName ≠ "" →
     paymentToken ≠ "" → paymentToken ≠ "PAID" →
     signup restaurantId now email password restaurantName paymentToken kv
     = Some (Json (Error "Payment required to create account") 402, kv))
  ∧ (email ≠ "" → password ≠ "" → restaurantName ≠ "" →
     kv !! email_key email = None →
     ∃ kv',
       signup restaurantId now email password restaurantName "PAID" kv
       = Some (ok (SuccessId restaurantId), kv')
       ∧ kv' !! email_key email = Some (VId restaurantId)).
Proof.
  split; [|split].
  - intros Hempty. unfold signup.
    rewrite <-!falsy_string_true in Hempty.
    destruct Hempty as [-> | [-> | [-> | ->]]];
      by rewrite ?orb_true_r.
  - intros He Hp Hn Ht Hpaid. unfold signup.
    apply falsy_string_false in He, Hp, Hn, Ht.
    apply String.eqb_neq in Hpaid. by rewrite He, Hp, Hn, Ht, Hpaid.
  - intros He Hp Hn Hfree. eexists. split.
    + apply signup_success; try done. by rewrite Hfree.
    + unfold registered.
      rewrite provision_tables_other by (intros i; key_discr).
      apply lookup_insert_eq.
Qed.

Lemma signup_payment_gate_witness :
  signup "7d9f" 1700000000000 "ana@example.com" "s3cret" "Cantina" "CARD"
    sample_store
  = Some (Json (Error "Payment required to create account") 402, sample_store)
  ∧ ∃ kv',
      signup "7d9f" 1700000000000 "ana@example.com" "s3cret" "Cantina" "PAID"
        sample_store
      = Some (ok (SuccessId "7d9f"), kv')
      ∧ kv' !! email_key "ana@example.com" = Some (VId "7d9f").
Proof.
  destruct (signup_payment_gate sample_store "7d9f" 1700000000000%float
              "ana@example.com" "s3cret" "Cantina" "CARD") as (_ & H402 & _).
  destruct (signup_payment_gate sample_store "7d9f" 1700000000000%float
              "ana@example.com" "s3cret" "Cantina" "PAID") as (_ & _ & Hok).
  split.
  - apply H402; discriminate.
  - apply Hok; try discriminate. vm_compute. reflexivity.
Defined.

Lemma starts_with_app a b c :
  starts_with (a +:+ b) (a +:+ c) = starts_with b c.
Proof.
  induction a as [|x a IH]; [done|]. simpl. by rewrite Ascii.eqb_refl.
Qed.

Lemma table_key_has_prefix restaurantId i :
  starts_with (table_prefix restaurantId) (table_key restaurantId i) = true.
Proof.
  unfold table_prefix, table_key.
  by rewrite (starts_with_app "table:"), starts_with_app.
Qed.

(** Nothing is listed under a prefix exactly when no key with the prefix
    is stored. *)
Lemma getByPrefix_nil prefix (kv : store) :
  getByPrefix prefix kv = [] →
  ∀ k, starts_with prefix k = true → kv !! k = None.
Proof.
  unfold getByPrefix. intros Hnil k Hk.
  apply fmap_nil_inv, map_to_list_empty_iff in Hnil.
  destruct (kv !! k) as [v|] eqn:Hv; [|done].
  assert (filter (λ e, starts_with prefix e.1 = true) kv !! k = Some v)
    as Hf by (by apply map_lookup_filter_Some).
  by rewrite Hnil in Hf.
Qed.

(** C5. After a signup that succeeded, with a minted id under which no
    table was stored before, the tables [1] to [10] of the new restaurant
    are stored, each with its number and an empty order list, and listing
    the restaurant's tables returns these ten records and no other, in
    some order. *)
Theorem signup_provisions_ten_tables (kv kv' : store) restaurantId now email
    password restaurantName paymentToken id :
  signup restaurantId now email password restaurantName paymentToken kv
  = Some (ok (SuccessId id), kv') →
  getByPrefix (table_prefix restaurantId) kv = [] →
  (∀ i, 1 ≤ i ≤ 10 →
     kv' !! table_key restaurantId i = Some (VTable (Table.mk i [])))
  ∧ ∃ tables,
      listTables restaurantId kv' = Some (ok (ValueList tables), kv')
      ∧ tables ≡ₚ empty_tables
      ∧ length tables = 10%nat.
Proof.
  intros Hrun Hfresh.
  apply signup_success_inv in Hrun as [-> ->].
  pose proof (getByPrefix_nil _ _ Hfresh) as Hnone.
  split; [intros i Hi; by apply provision_tables_table|].
  unfold listTables.
  eexists. split; [reflexivity|].
  set (l := (λ i, (table_key restaurantId i, VTable (Table.mk i [])))
              <$> seqZ 1 10).
  assert (Hnodup : NoDup l.*1).
  { subst l. rewrite <-list_fmap_compose.
    apply NoDup_fmap_2_strong; [|apply NoDup_seqZ].
    intros i j _ _ Heq. by apply table_key_inj in Heq. }
  assert (Hfilter :
    filter (λ e, starts_with (table_prefix restaurantId) e.1 = true)
      (registered restaurantId now email password restaurantName kv)
    = list_to_map l).
  { apply map_eq. intros k. apply option_eq. intros v.
    rewrite map_lookup_filter_Some, <-elem_of_list_to_map by done.
    subst l. rewrite list_elem_of_fmap. cbn [fst]. split.
    - intros [Hk Hpre].
      destruct (decide (k ∈ table_key restaurantId <$> seqZ 1 10))
        as [(i & -> & Hi)%list_elem_of_fmap|Hno].
      + exists i. split; [|done]. apply elem_of_seqZ in Hi.
        unfold registered in Hk.
        rewrite provision_tables_table in Hk by lia. by injection Hk as <-.
      + exfalso. unfold registered in Hk.
        rewrite provision_tables_unlisted, !lookup_insert_ne in Hk;
          [|intros <-; unfold_keys; simpl in Hpre; discriminate..|done].
        by rewrite Hnone in Hk.
    - intros (i & [= -> ->] & Hi). apply elem_of_seqZ in Hi.
      split; [apply provision_tables_table; lia|].
      apply table_key_has_prefix. }
  unfold getByPrefix. rewrite Hfilter.
  assert (Hperm : (map_to_list (list_to_map l : store)).*2 ≡ₚ empty_tables).
  { rewrite map_to_list_to_map by done. subst l.
    by rewrite <-list_fmap_compose. }
  split; [done|]. by rewrite Hperm.
Qed.

Lemma signup_provisions_ten_tables_witness :
  ∃ kv' tables,
    signup "7d9f" 1700000000000 "ana@example.com" "s3cret" "Cantina" "PAID"
      sample_store
    = Some (ok (SuccessId "7d9f"), kv')
    ∧ kv' !! table_key "7d9f" 10 = Some (VTable (Table.mk 10 []))
    ∧ listTables "7d9f" kv' = Some (ok (ValueList tables), kv')
    ∧ tables ≡ₚ empty_tables.
Proof.
  set (kv' := registered "7d9f" 1700000000000 "ana@example.com" "s3cret"
                "Cantina" sample_store).
  destruct (signup_provisions_ten_tables sample_store kv' "7d9f"
              1700000000000%float "ana@example.com" "s3cret" "Cantina" "PAID"
              "7d9f") as (Htable & tables & Hlist & Hperm & _);
    [vm_compute; reflexivity|vm_compute; reflexivity|].
  exists kv', tables. split; [vm_compute; reflexivity|].
  split; [apply Htable; lia|]. by split.
Defined.

(** ** Every handler keeps the key scheme *)

(** A key of another kind is not a registry key. *)
Ltac not_registry H :=
  intros ?; subst; unfold registry_key in H; unfold_keys; simpl in H;
  discriminate H.

Lemma wf_delete_orders restaurantId orderIds (kv : store) :
  wf kv →
  wf (foldl (λ kv orderId, delete (order_key restaurantId orderId) kv)
        kv orderIds).
Proof.
  revert kv. induction orderIds as [|orderId orderIds IH]; intros kv Hwf;
    [done|].
  cbn [foldl]. by apply IH, wf_delete.
Qed.

Lemma provision_tables_wf restaurantId (kv : store) :
  wf kv → wf (provision_tables restaurantId kv).
Proof.
  unfold provision_tables. generalize (seqZ 1 10). intros l.
  revert kv. induction l as [|i l IH]; intros kv Hwf; [done|].
  cbn [foldl]. apply IH, wf_insert; [kind_solve|done].
Qed.

Lemma registered_wf restaurantId now email password restaurantName
    (kv : store) :
  wf kv → wf (registered restaurantId now email password restaurantName kv).
Proof.
  intros Hwf. unfold registered.
  apply provision_tables_wf, wf_insert; [kind_solve|].
  apply wf_insert; [kind_solve|done].
Qed.

Lemma keeps_unchanged frame r (kv : store) :
  wf kv → keeps frame kv (Some (r, kv)).
Proof. intros Hwf. by exists r, kv. Qed.

Ltac kept := by apply keeps_unchanged.

Lemma signup_keeps restaurantId now email password restaurantName paymentToken
    (kv : store) :
  wf kv →
  keeps (λ k, registry_key k ∧ k ≠ restaurant_key restaurantId
              ∧ k ≠ email_key email) kv
    (signup restaurantId now email password restaurantName paymentToken kv).
Proof.
  intros Hwf. unfold signup.
  destruct (_ || _); [kept|].
  destruct (negb _); [kept|].
  destruct (from_option truthy false _); [kept|].
  exists (ok (SuccessId restaurantId)),
    (registered restaurantId now email password restaurantName kv).
  split; [done|]. split; [by apply registered_wf|].
  intros k (Hreg & Hr & He). unfold registered.
  rewrite provision_tables_other by (intros i; not_registry Hreg).
  by rewrite !lookup_insert_ne.
Qed.

Lemma setManagerPassword_keeps restaurantId password (kv : store) :
  wf kv →
  keeps (λ k, k ≠ restaurant_key restaurantId) kv
    (setManagerPassword restaurantId password kv).
Proof.
  intros Hwf. unfold setManagerPassword.
  destruct (kv !! restaurant_key restaurantId) as [v|] eqn:Hv;
    [|kept].
  destruct (wf_restaurant_key _ _ _ Hwf Hv) as [[r ->]|[s ->]].
  - eexists _, _. split; [done|]. split.
    + apply wf_insert; [kind_solve|done].
    + intros k Hk. by rewrite lookup_insert_ne.
  - destruct (truthy (VId s)); kept.
Qed.

Lemma placeOrder_keeps orderId now restaurantId tableNumber items
    (kv : store) :
  wf kv →
  keeps registry_key kv (placeOrder orderId now restaurantId tableNumber items kv).
Proof.
  intros Hwf.
  destruct (placeOrder_run orderId now restaurantId tableNumber items kv Hwf)
    as (kv' & Hrun & Hwf' & Hframe & _).
  eexists _, kv'. split; [done|]. split; [done|].
  intros k Hk. rewrite Hframe by (intros g; not_registry Hk).
  apply order_linked_frame; not_registry Hk.
Qed.

Lemma markReady_keeps restaurantId orderId (kv : store) :
  wf kv → keeps registry_key kv (markReady restaurantId orderId kv).
Proof.
  intros Hwf. unfold markReady.
  destruct (kv !! order_key restaurantId orderId) as [v|] eqn:Hv;
    [|kept].
  destruct (wf_order_key _ _ _ _ Hwf Hv) as [o ->].
  eexists _, _. split; [done|]. split.
  - apply wf_insert; [kind_solve|done].
  - intros k Hk. rewrite lookup_insert_ne; [done|not_registry Hk].
Qed.

Lemma completeOrder_keeps restaurantId orderId (kv : store) :
  wf kv → keeps registry_key kv (completeOrder restaurantId orderId kv).
Proof.
  intros Hwf. eexists _, _. split; [done|]. split; [by apply wf_delete|].
  intros k Hk. rewrite lookup_delete_ne; [done|not_registry Hk].
Qed.

Lemma updateLineItem_keeps restaurantId orderId itemIndex quantity
    (kv : store) :
  wf kv →
  keeps registry_key kv (updateLineItem restaurantId orderId itemIndex quantity kv).
Proof.
  intros Hwf. unfold updateLineItem.
  destruct (kv !! order_key restaurantId orderId) as [v|] eqn:Hv;
    [|kept].
  destruct (wf_order_key _ _ _ _ Hwf Hv) as [o ->].
  assert (Hsave : ∀ items,
    keeps registry_key kv
      (Some (ok Success,
             <[order_key restaurantId orderId :=
                 VOrder (with_items o items)]> kv))).
  { intros items. eexists _, _. split; [done|]. split.
    - apply wf_insert; [kind_solve|done].
    - intros k Hk. rewrite lookup_insert_ne; [done|not_registry Hk]. }
  destruct (quantity =? 0)%float; [apply Hsave|].
  destruct (index _ _); [apply Hsave|kept].
Qed.

Lemma closeTable_keeps today restaurantId tableNumber subtotal (kv : store) :
  wf kv →
  keeps registry_key kv (closeTable today restaurantId tableNumber subtotal kv).
Proof.
  intros Hwf. unfold closeTable.
  destruct (kv !! table_key restaurantId tableNumber) as [v|] eqn:Hv;
    [|kept].
  destruct (wf_table_key _ _ _ _ Hwf Hv) as [t ->].
  set (kv2 := <[table_key restaurantId tableNumber :=
                  VTable (Table.mk (Table.number t) [])]> _).
  assert (Hwf2 : wf kv2).
  { apply wf_insert; [kind_solve|]. by apply wf_delete_orders. }
  assert (Hframe2 : ∀ k, registry_key k → kv2 !! k = kv !! k).
  { intros k Hk. subst kv2. rewrite lookup_insert_ne by not_registry Hk.
    rewrite lookup_delete_orders. case_decide as Hin; [|done].
    apply list_elem_of_fmap in Hin as (orderId & Heq & _).
    exfalso. revert Heq. not_registry Hk. }
  assert (Hrecord : ∀ sales,
    keeps registry_key kv
      (Some (ok Success,
             <[sales_key restaurantId today := VSales sales]> kv2))).
  { intros sales. eexists _, _. split; [done|]. split.
    - apply wf_insert; [kind_solve|done].
    - intros k Hk. rewrite lookup_insert_ne by not_registry Hk.
      by apply Hframe2. }
  destruct (kv2 !! sales_key restaurantId today) as [v|] eqn:Hs.
  - destruct (wf_sales_key _ _ _ _ Hwf2 Hs) as [s ->]. apply Hrecord.
  - apply Hrecord.
Qed.

Lemma addProduct_keeps productId restaurantId name price category ingredients
    (kv : store) :
  wf kv →
  keeps registry_key kv
    (addProduct productId restaurantId name price category ingredients kv).
Proof.
  intros Hwf. eexists _, _. split; [done|]. split.
  - apply wf_insert; [kind_solve|done].
  - intros k Hk. rewrite lookup_insert_ne; [done|not_registry Hk].
Qed.

Lemma deleteProduct_keeps restaurantId productId (kv : store) :
  wf kv → keeps registry_key kv (deleteProduct restaurantId productId kv).
Proof.
  intros Hwf. eexists _, _. split; [done|]. split; [by apply wf_delete|].
  intros k Hk. rewrite lookup_delete_ne; [done|not_registry Hk].
Qed.

Lemma adjustInventory_keeps restaurantId ingredient quantity unit
    (kv : store) :
  wf kv →
  keeps registry_key kv (adjustInventory restaurantId ingredient quantity unit kv).
Proof.
  intros Hwf. unfold adjustInventory.
  assert (Hsave : ∀ current,
    keeps registry_key kv
      (Some (ok Success,
             <[inventory_key restaurantId ingredient :=
                 VInventory current]> kv))).
  { intros current. eexists _, _. split; [done|]. split.
    - apply wf_insert; [kind_solve|done].
    - intros k Hk. rewrite lookup_insert_ne; [done|not_registry Hk]. }
  destruct (kv !! inventory_key restaurantId ingredient) as [v|] eqn:Hv.
  - destruct (wf_inventory_key _ _ _ _ Hwf Hv) as [i ->]. apply Hsave.
  - apply Hsave.
Qed.

(** Every request completes on a store laid out by the key scheme and
    leaves such a store: the scheme holds in every store the server reaches
    from the empty one. *)
Lemma handle_wf req (kv : store) :
  wf kv → ∃ r kv', handle req kv = Some (r, kv') ∧ wf kv'.
Proof.
  intros Hwf.
  assert (Hdrop : ∀ frame result,
    keeps frame kv result → ∃ r kv', result = Some (r, kv') ∧ wf kv').
  { intros frame result (r & kv' & ? & ? & _). by exists r, kv'. }
  destruct req; simpl; eapply Hdrop.
  - by apply signup_keeps.
  - by apply setManagerPassword_keeps.
  - by apply placeOrder_keeps.
  - by apply markReady_keeps.
  - by apply completeOrder_keeps.
  - by apply updateLineItem_keeps.
  - by apply closeTable_keeps.
  - by apply addProduct_keeps.
  - by apply deleteProduct_keeps.
  - by apply adjustInventory_keeps.
Qed.

Lemma run_wf reqs : ∃ kv, run reqs ∅ = Some kv ∧ wf kv.
Proof.
  generalize wf_empty. generalize (∅ : store).
  induction reqs as [|req reqs IH]; intros kv Hwf; simpl.
  - by exists kv.
  - destruct (handle_wf req kv Hwf) as (r & kv1 & -> & Hwf1). simpl.
    by apply IH.
Qed.

(** ** The manager password before it is set *)

Lemma restaurant_key_inj a b : restaurant_key a = restaurant_key b → a = b.
Proof. unfold_keys. intros H. by apply (inj (String.append _)) in H. Qed.

(** The key of a restaurant is the index key of an email only when the id
    reads ["email:..."]. *)
Lemma restaurant_key_not_email restaurantId email :
  starts_with "email:" restaurantId = false →
  restaurant_key restaurantId ≠ email_key email.
Proof.
  intros Hid Heq. unfold_keys.
  change ("restaurant:" +:+ restaurantId = "restaurant:" +:+ "email:" +:+ email)
    in Heq.
  apply (inj (String.append _)) in Heq. subst restaurantId.
  simpl in Hid. discriminate Hid.
Qed.

Lemma restaurant_key_registry restaurantId :
  registry_key (restaurant_key restaurantId).
Proof. reflexivity. Qed.

Lemma registered_password_unset restaurantId now email password restaurantName
    (kv : store) :
  starts_with "email:" restaurantId = false →
  password_unset restaurantId
    (registered restaurantId now email password restaurantName kv).
Proof.
  intros Hid.
  exists (new_restaurant restaurantId now email password restaurantName).
  split; [|reflexivity]. unfold registered.
  rewrite provision_tables_other by (intros i; key_discr).
  rewrite lookup_insert_ne
    by (apply not_eq_sym; by apply restaurant_key_not_email).
  by rewrite lookup_insert_eq.
Qed.

Lemma handle_leaves_password restaurantId req (kv : store) :
  wf kv →
  starts_with "email:" restaurantId = false →
  leaves_password restaurantId req = true →
  keeps (λ k, k = restaurant_key restaurantId) kv (handle req kv).
Proof.
  intros Hwf Hid Hreq.
  assert (Hweaken : ∀ (frame : string → Prop) result,
    frame (restaurant_key restaurantId) →
    keeps frame kv result →
    keeps (λ k, k = restaurant_key restaurantId) kv result).
  { intros frame result Hf (r & kv' & ? & ? & Hframe).
    exists r, kv'. split; [done|]. split; [done|].
    intros k ->. by apply Hframe. }
  pose proof (restaurant_key_registry restaurantId) as Hreg.
  destruct req; simpl in *.
  - eapply Hweaken; [|by apply signup_keeps]. simpl.
    apply negb_true_iff, String.eqb_neq in Hreq.
    split; [done|]. split; [|by apply restaurant_key_not_email].
    intros Heq. by apply restaurant_key_inj in Heq.
  - eapply Hweaken; [|by apply setManagerPassword_keeps]. simpl.
    apply negb_true_iff, String.eqb_neq in Hreq.
    intros Heq. by apply restaurant_key_inj in Heq.
  - eapply Hweaken; [|by apply placeOrder_keeps]. done.
  - eapply Hweaken; [|by apply markReady_keeps]. done.
  - eapply Hweaken; [|by apply completeOrder_keeps]. done.
  - eapply Hweaken; [|by apply updateLineItem_keeps]. done.
  - eapply Hweaken; [|by apply closeTable_keeps]. done.
  - eapply Hweaken; [|by apply addProduct_keeps]. done.
  - eapply Hweaken; [|by apply deleteProduct_keeps]. done.
  - eapply Hweaken; [|by apply adjustInventory_keeps]. done.
Qed.

Lemma run_leaves_password restaurantId reqs (kv : store) :
  wf kv →
  starts_with "email:" restaurantId = false →
  forallb (leaves_password restaurantId) reqs = true →
  ∃ kv', run reqs kv = Some kv' ∧ wf kv'
         ∧ kv' !! restaurant_key restaurantId
           = kv !! restaurant_key restaurantId.
Proof.
  intros Hwf Hid. revert kv Hwf.
  induction reqs as [|req reqs IH]; intros kv Hwf Hreqs; simpl in *.
  - by exists kv.
  - apply andb_true_iff in Hreqs as [Hreq Hreqs].
    destruct (handle_leaves_password restaurantId req kv Hwf Hid Hreq)
      as (r & kv1 & -> & Hwf1 & Hframe).
    simpl. destruct (IH kv1 Hwf1 Hreqs) as (kv' & Hrun & Hwf' & Hsame).
    exists kv'. split; [done|]. split; [done|].
    rewrite Hsame. by apply Hframe.
Qed.

(** C10. Take a store laid out by the key scheme and a signup that
    succeeded on it with a minted id (a UUID, so not of the form
    ["email:..."]).  After any sequence of later requests among which none
    is [setManagerPassword] for that restaurant, and none is a signup
    minting the same id again, every request completes and
    [verifyManagerPassword] with the empty string as password succeeds. *)
Theorem verifyManager_accepts_empty_before_set (kv kv1 : store) restaurantId
    now email password restaurantName paymentToken id reqs :
  wf kv →
  signup restaurantId now email password restaurantName paymentToken kv
  = Some (ok (SuccessId id), kv1) →
  starts_with "email:" restaurantId = false →
  forallb (leaves_password restaurantId) reqs = true →
  ∃ kv2,
    run reqs kv1 = Some kv2
    ∧ verifyManager restaurantId "" kv2 = Some (ok Success, kv2).
Proof.
  intros Hwf Hsignup Hid Hreqs.
  apply signup_success_inv in Hsignup as [-> ->].
  pose proof (registered_wf restaurantId now email password restaurantName kv
                Hwf) as Hwf1.
  destruct (run_leaves_password restaurantId reqs _ Hwf1 Hid Hreqs)
    as (kv2 & Hrun & _ & Hsame).
  destruct (registered_password_unset restaurantId now email password
              restaurantName kv Hid) as (r & Hr & Hpw).
  exists kv2. split; [done|].
  unfold verifyManager. rewrite Hsame, Hr, Hpw. done.
Qed.

Lemma verifyManager_accepts_empty_before_set_witness :
  ∃ kv1 kv2,
    signup "7d9f" 1700000000000 "ana@example.com" "s3cret" "Cantina" "PAID"
      sample_store
    = Some (ok (SuccessId "7d9f"), kv1)
    ∧ run sample_requests kv1 = Some kv2
    ∧ verifyManager "7d9f" "" kv2 = Some (ok Success, kv2).
Proof.
  set (kv1 := registered "7d9f" 1700000000000 "ana@example.com" "s3cret"
                "Cantina" sample_store).
  assert (Hwf : wf sample_store)
    by (apply (bool_decide_unpack _); vm_compute; exact I).
  destruct (verifyManager_accepts_empty_before_set sample_store kv1 "7d9f"
              1700000000000%float "ana@example.com" "s3cret" "Cantina" "PAID"
              "7d9f" sample_requests Hwf) as (kv2 & Hrun & Hverify);
    [vm_compute; reflexivity|reflexivity|reflexivity|].
  exists kv1, kv2. split; [vm_compute; reflexivity|]. by split.
Defined.

(** * Further properties *)

(** ** Strings and the prefix scan *)

Lemma append_assoc (a b c : string) : (a +:+ b) +:+ c = a +:+ b +:+ c.
Proof.
  induction a as [|x a IH]; [done|].
  change (String x ((a +:+ b) +:+ c) = String x (a +:+ b +:+ c)).
  by rewrite IH.
Qed.

Lemma starts_with_self p rest : starts_with p (p +:+ rest) = true.
Proof.
  induction p as [|x p IH]; [done|]. simpl. by rewrite Ascii.eqb_refl.
Qed.

Lemma starts_with_inv p k : starts_with p k = true → ∃ rest, k = p +:+ rest.
Proof.
  revert k. induction p as [|x p IH]; intros k Hk; [by exists k|].
  destruct k as [|y k]; [done|]. simpl in Hk.
  apply andb_true_iff in Hk as [Hx Hk]. apply Ascii.eqb_eq in Hx as ->.
  destruct (IH k Hk) as [rest ->]. by exists rest.
Qed.

(** The prefix scan returns exactly the values stored under the keys that
    start with the prefix. *)
Lemma elem_of_getByPrefix prefix (kv : store) v :
  v ∈ getByPrefix prefix kv
  ↔ ∃ k, starts_with prefix k = true ∧ kv !! k = Some v.
Proof.
  unfold getByPrefix. rewrite list_elem_of_fmap. split.
  - intros ([k v'] & -> & Hin). apply elem_of_map_to_list in Hin.
    apply map_lookup_filter_Some in Hin as [Hk Hp]. by exists k.
  - intros (k & Hp & Hk). exists (k, v). split; [done|].
    apply elem_of_map_to_list. by apply map_lookup_filter_Some.
Qed.

(** ** Logging in *)

Lemma signup_success_fields restaurantId now email password restaurantName
    paymentToken (kv : store) id kv' :
  signup restaurantId now email password restaurantName paymentToken kv
  = Some (ok (SuccessId id), kv') →
  email ≠ "" ∧ password ≠ "" ∧ restaurantName ≠ "".
Proof.
  unfold signup.
  destruct (falsy_string email) eqn:He; [done|].
  destruct (falsy_string password) eqn:Hp; [done|].
  destruct (falsy_string restaurantName) eqn:Hn; [done|].
  intros _. by rewrite <-!falsy_string_false.
Qed.

Lemma registered_email restaurantId now email password restaurantName
    (kv : store) :
  registered restaurantId now email password restaurantName kv
    !! email_key email
  = Some (VId restaurantId).
Proof.
  unfold registered. rewrite provision_tables_other by (intros i; key_discr).
  apply lookup_insert_eq.
Qed.

Lemma registered_restaurant restaurantId now email password restaurantName
    (kv : store) :
  starts_with "email:" restaurantId = false →
  registered restaurantId now email password restaurantName kv
    !! restaurant_key restaurantId
  = Some (VRestaurant
            (new_restaurant restaurantId now email password restaurantName)).
Proof.
  intros Hid. unfold registered.
  rewrite provision_tables_other by (intros i; key_discr).
  rewrite lookup_insert_ne
    by (apply not_eq_sym; by apply restaurant_key_not_email).
  apply lookup_insert_eq.
Qed.

Lemma truthy_id s : s ≠ "" → truthy (VId s) = true.
Proof. intros Hs. simpl. by apply negb_true_iff, String.eqb_neq. Qed.

(** X1. After a signup that succeeded with a minted id (not empty, not of
    the form ["email:..."]), logging in with the same email and password
    answers 200 with that id, the restaurant name and no manager password
    set; with the same email and any other non-empty password it answers
    401 "Invalid credentials", the very answer an email that was never
    registered gets. *)
Theorem login_after_signup (kv kv1 : store) restaurantId now email password
    restaurantName paymentToken id :
  signup restaurantId now email password restaurantName paymentToken kv
  = Some (ok (SuccessId id), kv1) →
  restaurantId ≠ "" →
  starts_with "email:" restaurantId = false →
  login email password kv1
  = (LoginSuccess (VId restaurantId) restaurantName false, 200)
  ∧ (∀ other, other ≠ "" → other ≠ password →
       login email other kv1 = invalid_credentials)
  ∧ (∀ unknown, unknown ≠ "" → kv1 !! email_key unknown = None →
       login unknown password kv1 = invalid_credentials).
Proof.
  intros Hsignup Hne Hid.
  destruct (signup_success_fields _ _ _ _ _ _ _ _ _ Hsignup)
    as (He & Hp & _).
  apply signup_success_inv in Hsignup as [-> ->].
  apply falsy_string_false in He, Hp.
  split; [|split].
  - unfold login. rewrite He, Hp, registered_email, truthy_id by done.
    simpl. rewrite registered_restaurant by done. simpl.
    by rewrite String.eqb_refl.
  - intros other Ho Hdiff. unfold login.
    apply falsy_string_false in Ho.
    rewrite He, Ho, registered_email, truthy_id by done.
    simpl. rewrite registered_restaurant by done. simpl.
    apply not_eq_sym, String.eqb_neq in Hdiff. by rewrite Hdiff.
  - intros unknown Hu Hnone. unfold login.
    apply falsy_string_false in Hu. by rewrite Hu, Hp, Hnone.
Qed.

Lemma login_after_signup_witness :
  ∃ kv1,
    signup "7d9f" 1700000000000 "ana@example.com" "s3cret" "Cantina" "PAID"
      sample_store
    = Some (ok (SuccessId "7d9f"), kv1)
    ∧ login "ana@example.com" "s3cret" kv1
      = (LoginSuccess (VId "7d9f") "Cantina" false, 200)
    ∧ login "ana@example.com" "guess" kv1 = invalid_credentials.
Proof.
  set (kv1 := registered "7d9f" 1700000000000 "ana@example.com" "s3cret"
                "Cantina" sample_store).
  destruct (login_after_signup sample_store kv1 "7d9f" 1700000000000%float
              "ana@example.com" "s3cret" "Cantina" "PAID" "7d9f")
    as (Hok & Hbad & _);
    [vm_compute; reflexivity|discriminate|reflexivity|].
  exists kv1. split; [vm_compute; reflexivity|]. split; [done|].
  apply Hbad; discriminate.
Defined.

(** ** The manager password *)

(** X2. On a stored restaurant, [setManagerPassword] succeeds whatever
    the password was before and changes that one field of the record.
    Afterwards [verifyManager] succeeds with exactly the password set and
    answers 401 with any other; a second [setManagerPassword] replaces the
    first, and the login password is the one it was. *)
Theorem setManagerPassword_then_verify (kv : store) restaurantId r first
    second :
  kv !! restaurant_key restaurantId = Some (VRestaurant r) →
  ∃ kv1 kv2,
    setManagerPassword restaurantId first kv = Some (ok Success, kv1)
    ∧ kv1 = <[restaurant_key restaurantId :=
                VRestaurant (with_manager_password r first)]> kv
    ∧ (∀ password,
         verifyManager restaurantId password kv1
         = Some (if decide (password = first) then ok Success
                 else invalid_manager_password, kv1))
    ∧ setManagerPassword restaurantId second kv1 = Some (ok Success, kv2)
    ∧ kv2 = <[restaurant_key restaurantId :=
                VRestaurant (with_manager_password r second)]> kv
    ∧ (∀ password,
         verifyManager restaurantId password kv2
         = Some (if decide (password = second) then ok Success
                 else invalid_manager_password, kv2))
    ∧ Restaurant.password (with_manager_password r second)
      = Restaurant.password r.
Proof.
  intros Hr.
  assert (Hverify : ∀ (kv' : store) p password,
    kv' !! restaurant_key restaurantId
    = Some (VRestaurant (with_manager_password r p)) →
    verifyManager restaurantId password kv'
    = Some (if decide (password = p) then ok Success
            else invalid_manager_password, kv')).
  { intros kv' p password Hk. unfold verifyManager. rewrite Hk. simpl.
    case_decide as Hp.
    - subst. by rewrite String.eqb_refl.
    - apply not_eq_sym, String.eqb_neq in Hp. by rewrite Hp. }
  eexists _, _. split; [unfold setManagerPassword; by rewrite Hr|].
  split; [done|].
  split; [intros password; apply Hverify, lookup_insert_eq|].
  split; [unfold setManagerPassword; by rewrite lookup_insert_eq|].
  split; [by rewrite insert_insert_eq|].
  split; [|done]. intros password. apply Hverify, lookup_insert_eq.
Qed.

Lemma setManagerPassword_then_verify_witness :
  ∃ kv1,
    setManagerPassword "7d9f" "hunter2" sample_registry
    = Some (ok Success, kv1)
    ∧ verifyManager "7d9f" "hunter2" kv1 = Some (ok Success, kv1)
    ∧ verifyManager "7d9f" "" kv1 = Some (invalid_manager_password, kv1).
Proof.
  destruct (setManagerPassword_then_verify sample_registry "7d9f"
              (new_restaurant "7d9f" 1700000000000 "ana@example.com" "s3cret"
                 "Cantina") "hunter2" "other")
    as (kv1 & kv2 & Hset & _ & Hverify & _); [vm_compute; reflexivity|].
  exists kv1. split; [done|]. split.
  - by rewrite Hverify.
  - by rewrite Hverify.
Defined.

(** ** The kitchen list *)

Lemma kitchenOrder_Some v o :
  kitchenOrder v = Some o
  ↔ v = VOrder o ∧ Order.status o = "pending"
    ∧ existsb isFood (Order.items o) = true.
Proof.
  unfold kitchenOrder. split.
  - destruct v as [| | |order| | |]; try done.
    destruct (String.eqb _ _) eqn:Hs; [|done].
    destruct (existsb _ _) eqn:Hf; [|done].
    intros [= ->]. by apply String.eqb_eq in Hs.
  - intros (-> & Hs & Hf). apply String.eqb_eq in Hs. by rewrite Hs, Hf.
Qed.

Lemma elem_of_kitchen restaurantId (kv : store) o :
  o ∈ omap kitchenOrder (getByPrefix (order_prefix restaurantId) kv)
  ↔ ∃ k, starts_with (order_prefix restaurantId) k = true
         ∧ kv !! k = Some (VOrder o)
         ∧ Order.status o = "pending"
         ∧ existsb isFood (Order.items o) = true.
Proof.
  rewrite list_elem_of_omap. split.
  - intros (v & Hv & Hk). apply kitchenOrder_Some in Hk as (-> & ? & ?).
    apply elem_of_getByPrefix in Hv as (k & ? & ?). by exists k.
  - intros (k & ? & ? & ? & ?). exists (VOrder o). split.
    + apply elem_of_getByPrefix. by exists k.
    + by apply kitchenOrder_Some.
Qed.

(** X3. The kitchen list of a restaurant holds exactly the pending orders
    with at least one food item that are stored under a key starting
    with the restaurant's order prefix: nothing else is returned and none
    of them is left out.  The store is not changed. *)
Theorem listKitchenOrders_exact (kv : store) restaurantId :
  ∃ orders,
    listKitchenOrders restaurantId kv = Some (ok (OrderList orders), kv)
    ∧ ∀ o,
        o ∈ orders
        ↔ ∃ k, starts_with (order_prefix restaurantId) k = true
               ∧ kv !! k = Some (VOrder o)
               ∧ Order.status o = "pending"
               ∧ (∃ item, item ∈ Order.items o ∧ Item.category item = "food").
Proof.
  eexists. split; [done|]. intros o. rewrite elem_of_kitchen.
  assert (existsb isFood (Order.items o) = true
          ↔ ∃ item, item ∈ Order.items o ∧ Item.category item = "food")
    as Hfood.
  { rewrite existsb_exists. unfold isFood.
    split; intros (item & Hin & Hc); exists item.
    - by rewrite list_elem_of_In, <-String.eqb_eq.
    - by rewrite <-list_elem_of_In, String.eqb_eq. }
  by setoid_rewrite Hfood.
Qed.

Lemma order_key_has_prefix restaurantId orderId :
  starts_with (order_prefix restaurantId) (order_key restaurantId orderId)
  = true.
Proof.
  unfold order_prefix, order_key.
  by rewrite (starts_with_app "order:"), starts_with_app.
Qed.

(** X4. A stored pending order with a food item is on the kitchen list.
    After [markReady] on it, and likewise after [completeOrder], the
    kitchen list holds exactly the kitchen orders stored under the other
    keys: the one order is gone and no other is lost or added. *)
Theorem kitchen_list_after_ready_or_complete (kv : store) restaurantId
    orderId o :
  kv !! order_key restaurantId orderId = Some (VOrder o) →
  Order.status o = "pending" →
  existsb isFood (Order.items o) = true →
  o ∈ omap kitchenOrder (getByPrefix (order_prefix restaurantId) kv)
  ∧ ∀ kv' r,
      markReady restaurantId orderId kv = Some (r, kv')
      ∨ completeOrder restaurantId orderId kv = Some (r, kv') →
      ∃ orders,
        listKitchenOrders restaurantId kv' = Some (ok (OrderList orders), kv')
        ∧ ∀ o',
            o' ∈ orders
            ↔ ∃ k, k ≠ order_key restaurantId orderId
                   ∧ starts_with (order_prefix restaurantId) k = true
                   ∧ kv !! k = Some (VOrder o')
                   ∧ Order.status o' = "pending"
                   ∧ existsb isFood (Order.items o') = true.
Proof.
  intros Hk Hs Hf. split.
  { apply elem_of_kitchen. exists (order_key restaurantId orderId).
    by rewrite order_key_has_prefix. }
  intros kv' r Hrun. eexists. split; [done|].
  intros o'. rewrite elem_of_kitchen.
  assert (Hother : ∀ k, k ≠ order_key restaurantId orderId →
                        kv' !! k = kv !! k).
  { intros k Hne. destruct Hrun as [Hrun|Hrun].
    - unfold markReady in Hrun. rewrite Hk in Hrun.
      injection Hrun as _ <-. by rewrite lookup_insert_ne.
    - injection Hrun as _ <-. by rewrite lookup_delete_ne. }
  assert (Hthis : ∀ o', kv' !! order_key restaurantId orderId
                        = Some (VOrder o') → Order.status o' ≠ "pending").
  { intros o'' Ho. destruct Hrun as [Hrun|Hrun].
    - unfold markReady in Hrun. rewrite Hk in Hrun.
      injection Hrun as _ <-. rewrite lookup_insert_eq in Ho.
      by injection Ho as <-.
    - injection Hrun as _ <-. by rewrite lookup_delete_eq in Ho. }
  split.
  - intros (k & Hp & Hv & Hpend & Hfood).
    destruct (decide (k = order_key restaurantId orderId)) as [->|Hne].
    + by destruct (Hthis o' Hv).
    + exists k. by rewrite <-Hother.
  - intros (k & Hne & Hp & Hv & Hpend & Hfood).
    exists k. by rewrite Hother.
Qed.

Lemma kitchen_list_after_ready_or_complete_witness :
  sample_order
    ∈ omap kitchenOrder (getByPrefix (order_prefix "r1") sample_store)
  ∧ ∃ kv',
      markReady "r1" "o1" sample_store = Some (ok Success, kv')
      ∧ listKitchenOrders "r1" kv' = Some (ok (OrderList []), kv').
Proof.
  destruct (kitchen_list_after_ready_or_complete sample_store "r1" "o1"
              sample_order) as [Hin Hafter];
    [vm_compute; reflexivity|reflexivity|reflexivity|].
  split; [exact Hin|].
  eexists. split; [vm_compute; reflexivity|]. vm_compute. reflexivity.
Defined.

(** Every order the kitchen route returns is pending and has food. *)
Lemma kitchen_orders_pending_food restaurantId (kv : store) :
  Forall (λ o, Order.status o = "pending"
               ∧ existsb isFood (Order.items o) = true)
    (omap kitchenOrder (getByPrefix (order_prefix restaurantId) kv)).
Proof.
  apply Forall_forall. intros o Ho.
  apply elem_of_kitchen in Ho as (k & _ & _ & ? & ?). done.
Qed.

(** X5. Whatever is stored, the cashier view's list of ready orders is
    empty: it keeps the orders with status ["ready"] of the kitchen
    route's answer, and that route returns pending orders only. *)
Theorem cashier_ready_orders_always_empty (kv : store) restaurantId :
  ∃ orders,
    listKitchenOrders restaurantId kv = Some (ok (OrderList orders), kv)
    ∧ loadReadyOrders orders = [].
Proof.
  eexists. split; [done|]. unfold loadReadyOrders.
  pose proof (kitchen_orders_pending_food restaurantId kv) as Hall.
  induction Hall as [|o orders [Hs _] _ IH]; [done|].
  rewrite filter_cons_False; [done|]. by rewrite Hs.
Qed.

(** X6. The kitchen view drops nothing of what the kitchen route
    returned: its own food filter, applied to that list in any order
    (the view sorts it first), gives the list back. *)
Theorem kitchen_view_shows_every_order (kv : store) restaurantId sorted :
  sorted ≡ₚ omap kitchenOrder (getByPrefix (order_prefix restaurantId) kv) →
  foodOrders sorted = sorted.
Proof.
  intros Hperm. unfold foodOrders.
  pose proof (kitchen_orders_pending_food restaurantId kv) as Hall.
  rewrite <-Hperm in Hall. clear Hperm.
  induction Hall as [|o orders [_ Hf] _ IH]; [done|].
  rewrite filter_cons_True by done. by rewrite IH.
Qed.

Lemma kitchen_view_shows_every_order_witness :
  foodOrders [sample_order] = [sample_order].
Proof.
  apply (kitchen_view_shows_every_order sample_store "r1").
  vm_compute. reflexivity.
Defined.

(** ** What a request changes *)

Lemma step_ok_refl signup v : step_ok signup v v.
Proof.
  split; [|split].
  - intros t ->. by exists t.
  - intros t' ->. right. by exists t'.
  - intros [] ->. by eexists.
Qed.

Lemma step_ok_trans signup v1 v2 v3 :
  step_ok signup v1 v2 → step_ok signup v2 v3 → step_ok signup v1 v3.
Proof.
  intros (Ht1 & Hn1 & Hi1) (Ht2 & Hn2 & Hi2). split; [|split].
  - intros t Hv. destruct (Ht1 t Hv) as (t' & Hv' & Hnum).
    destruct (Ht2 t' Hv') as (t'' & Hv'' & Hnum').
    exists t''. split; [done|]. intros Hs. by rewrite Hnum', Hnum.
  - intros t'' Hv. destruct (Hn2 t'' Hv) as [|[t' Hv']]; [by left|].
    by apply (Hn1 t').
  - intros i Hv. destruct (Hi1 i Hv) as (q & Hv').
    destruct (Hi2 _ Hv') as (q' & Hv''). by exists q'.
Qed.

Lemma effect_refl fp signup (kv : store) : effect fp signup kv kv.
Proof. intros k. split; [apply step_ok_refl|done]. Qed.

Lemma effect_trans fp signup (kv1 kv2 kv3 : store) :
  effect fp signup kv1 kv2 → effect fp signup kv2 kv3 →
  effect fp signup kv1 kv3.
Proof.
  intros H1 H2 k. destruct (H1 k) as [Hs1 Hf1], (H2 k) as [Hs2 Hf2].
  split; [by eapply step_ok_trans|].
  intros Hk. by rewrite Hf2, Hf1.
Qed.

Lemma effect_insert fp signup (kv : store) k0 v :
  fp k0 = true → step_ok signup (kv !! k0) (Some v) →
  effect fp signup kv (<[k0:=v]> kv).
Proof.
  intros Hfp Hstep k. destruct (decide (k = k0)) as [->|Hne].
  - rewrite lookup_insert_eq. split; [done|]. by rewrite Hfp.
  - rewrite lookup_insert_ne by done. split; [apply step_ok_refl|done].
Qed.

Lemma effect_delete fp signup (kv : store) k0 :
  fp k0 = true → step_ok signup (kv !! k0) None →
  effect fp signup kv (delete k0 kv).
Proof.
  intros Hfp Hstep k. destruct (decide (k = k0)) as [->|Hne].
  - rewrite lookup_delete_eq. split; [done|]. by rewrite Hfp.
  - rewrite lookup_delete_ne by done. split; [apply step_ok_refl|done].
Qed.

(** Two values that fit the same key are of the same kind. *)
Lemma kind_prefix_unique k v v' :
  kind_ok k v = true → kind_ok k v' = true → kind_prefix v = kind_prefix v'.
Proof.
  unfold kind_ok. destruct k as [|c k]; [by destruct v|].
  destruct v, v'; try done; cbn [kind_prefix starts_with];
    rewrite !andb_true_iff, !Ascii.eqb_eq;
    intros [<- _] [? _]; discriminate.
Qed.

(** Under the key scheme, a key that fits a value that is neither a table
    nor an inventory record holds neither. *)
Lemma step_ok_write signup (kv : store) k0 v :
  wf kv → kind_ok k0 v = true →
  kind_prefix v ≠ "table:" → kind_prefix v ≠ "inventory:" →
  ∀ new, (∀ t, new ≠ Some (VTable t)) → step_ok signup (kv !! k0) new.
Proof.
  intros Hwf Hkind Ht Hi new Hnew. split; [|split].
  - intros t Hold. apply wf_lookup in Hold; [|done].
    by pose proof (kind_prefix_unique _ _ _ Hkind Hold).
  - intros t' ->. by destruct (Hnew t').
  - intros i Hold. apply wf_lookup in Hold; [|done].
    by pose proof (kind_prefix_unique _ _ _ Hkind Hold).
Qed.

Lemma step_ok_table signup (kv : store) k0 t t' :
  kv !! k0 = Some (VTable t) → Table.number t' = Table.number t →
  step_ok signup (kv !! k0) (Some (VTable t')).
Proof.
  intros -> Hnum. split; [|split]; [| |done].
  - intros ? [= <-]. by exists t'.
  - intros ? _. right. by exists t.
Qed.

Lemma step_ok_provision (kv : store) restaurantId i t' :
  wf kv → step_ok true (kv !! table_key restaurantId i) (Some (VTable t')).
Proof.
  intros Hwf. split; [|split].
  - intros t _. by exists t'.
  - intros ? _. by left.
  - intros inv Hold. apply wf_lookup in Hold; [|done].
    unfold kind_ok in Hold. unfold_keys. simpl in Hold. discriminate Hold.
Qed.

Lemma step_ok_inventory signup (old : option value) current quantity :
  old = None ∨ old = Some (VInventory current) →
  step_ok signup old
    (Some (VInventory
             (Inventory.mk (Inventory.ingredient current) quantity
                (Inventory.unit current)))).
Proof.
  intros Hold. split; [|split].
  - intros t ->. by destruct Hold.
  - intros ? [=].
  - intros i ->. destruct Hold as [|[= ->]]; [done|]. by eexists.
Qed.

(** The keys of a restaurant are under its id. *)
Lemma own_key_restaurant restaurantId :
  own_key restaurantId (restaurant_key restaurantId) = true.
Proof. unfold own_key. by rewrite String.eqb_refl. Qed.

Lemma own_key_table restaurantId n :
  own_key restaurantId (table_key restaurantId n) = true.
Proof.
  unfold own_key. rewrite table_key_has_prefix. by rewrite orb_true_r.
Qed.

Lemma own_key_order restaurantId orderId :
  own_key restaurantId (order_key restaurantId orderId) = true.
Proof.
  unfold own_key. rewrite order_key_has_prefix. by rewrite !orb_true_r.
Qed.

Lemma product_key_has_prefix restaurantId productId :
  starts_with (product_prefix restaurantId)
    (product_key restaurantId productId) = true.
Proof.
  unfold product_prefix, product_key.
  by rewrite (starts_with_app "product:"), starts_with_app.
Qed.

Lemma inventory_key_has_prefix restaurantId g :
  starts_with (inventory_prefix restaurantId) (inventory_key restaurantId g)
  = true.
Proof.
  unfold inventory_prefix, inventory_key.
  by rewrite (starts_with_app "inventory:"), starts_with_app.
Qed.

Lemma sales_key_has_prefix restaurantId day :
  starts_with (sales_prefix restaurantId) (sales_key restaurantId day) = true.
Proof.
  unfold sales_prefix, sales_key.
  by rewrite (starts_with_app "sales:"), starts_with_app.
Qed.

Lemma own_key_product restaurantId productId :
  own_key restaurantId (product_key restaurantId productId) = true.
Proof.
  unfold own_key. rewrite product_key_has_prefix. by rewrite ?orb_true_r.
Qed.

Lemma own_key_inventory restaurantId g :
  own_key restaurantId (inventory_key restaurantId g) = true.
Proof.
  unfold own_key. rewrite inventory_key_has_prefix. by rewrite ?orb_true_r.
Qed.

Lemma own_key_sales restaurantId day :
  own_key restaurantId (sales_key restaurantId day) = true.
Proof.
  unfold own_key. rewrite sales_key_has_prefix. by rewrite ?orb_true_r.
Qed.

Lemma for_of_effect {A} fp signup (body : A → store → option store) l :
  (∀ x kv kv', body x kv = Some kv' → effect fp signup kv kv') →
  ∀ kv kv', for_of body l kv = Some kv' → effect fp signup kv kv'.
Proof.
  intros Hbody. induction l as [|x l IH]; intros kv kv' Hrun; simpl in Hrun.
  - injection Hrun as <-. apply effect_refl.
  - destruct (body x kv) as [kv1|] eqn:Hx; [|done]. simpl in Hrun.
    eapply effect_trans; [by apply Hbody in Hx|by apply IH].
Qed.

Lemma deductIngredient_effect fp signup restaurantId item ingredient
    (kv kv' : store) :
  fp (inventory_key restaurantId (Ingredient.name ingredient)) = true →
  deductIngredient restaurantId item ingredient kv = Some kv' →
  effect fp signup kv kv'.
Proof.
  intros Hfp. unfold deductIngredient.
  destruct (kv !! inventory_key _ _) as [[| | | | |current|]|] eqn:Hk;
    try done; intros [= <-]; [|apply effect_refl].
  apply effect_insert; [done|]. rewrite Hk.
  apply step_ok_inventory. by right.
Qed.

Lemma deductItem_effect fp signup restaurantId item (kv kv' : store) :
  (∀ g, fp (inventory_key restaurantId g) = true) →
  deductItem restaurantId item kv = Some kv' → effect fp signup kv kv'.
Proof.
  intros Hfp. unfold deductItem.
  destruct (kv !! product_key _ _) as [[| | | |product| |]|]; try done.
  - apply for_of_effect. intros ingredient kv1 kv2.
    by apply deductIngredient_effect.
  - intros [= <-]. apply effect_refl.
Qed.

Lemma placeOrder_effect fp signup orderId now restaurantId tableNumber items
    (kv kv' : store) r :
  wf kv →
  fp (order_key restaurantId orderId) = true →
  fp (table_key restaurantId tableNumber) = true →
  (∀ g, fp (inventory_key restaurantId g) = true) →
  placeOrder orderId now restaurantId tableNumber items kv = Some (r, kv') →
  effect fp signup kv kv'.
Proof.
  intros Hwf Ho Ht Hi. unfold placeOrder.
  set (kv1 := <[order_key restaurantId orderId := _]> kv).
  assert (H1 : effect fp signup kv kv1).
  { apply effect_insert; [done|].
    eapply (step_ok_write _ _ _ (VOrder sample_order)); try done;
      kind_solve. }
  assert (Hlinked : ∀ kv2,
    match kv1 !! table_key restaurantId tableNumber with
    | Some (VTable table) =>
        Some (<[table_key restaurantId tableNumber :=
                  VTable (Table.mk (Table.number table)
                            (Table.orders table ++ [orderId]))]> kv1)
    | Some _ => None
    | None => Some kv1
    end = Some kv2 → effect fp signup kv1 kv2).
  { intros kv2.
    destruct (kv1 !! table_key _ _) as [[| |table| | | |]|] eqn:Hk;
      try done; intros [= <-]; [|apply effect_refl].
    apply effect_insert; [done|]. by eapply step_ok_table. }
  destruct (match kv1 !! table_key restaurantId tableNumber with
            | Some (VTable _) => _ | Some _ => _ | None => _ end)
    as [kv2|] eqn:H2; [|done]. simpl.
  destruct (for_of _ items kv2) as [kv3|] eqn:H3; [|done]. simpl.
  intros [= _ <-].
  eapply effect_trans; [exact H1|].
  eapply effect_trans; [by apply Hlinked|].
  eapply for_of_effect; [|exact H3].
  intros item kv4 kv5. by apply deductItem_effect.
Qed.

Lemma delete_orders_effect fp signup restaurantId orderIds (kv : store) :
  wf kv →
  (∀ orderId, fp (order_key restaurantId orderId) = true) →
  effect fp signup kv
    (foldl (λ kv orderId, delete (order_key restaurantId orderId) kv)
       kv orderIds).
Proof.
  intros Hwf Hfp. revert kv Hwf.
  induction orderIds as [|orderId orderIds IH]; intros kv Hwf.
  - apply effect_refl.
  - cbn [foldl]. eapply effect_trans; [|by apply IH, wf_delete].
    apply effect_delete; [done|].
    eapply (step_ok_write _ _ _ (VOrder sample_order)); try done;
      kind_solve.
Qed.

Lemma closeTable_effect fp signup today restaurantId tableNumber subtotal
    (kv kv' : store) r :
  wf kv →
  (∀ orderId, fp (order_key restaurantId orderId) = true) →
  fp (table_key restaurantId tableNumber) = true →
  fp (sales_key restaurantId today) = true →
  closeTable today restaurantId tableNumber subtotal kv = Some (r, kv') →
  effect fp signup kv kv'.
Proof.
  intros Hwf Ho Ht Hs. unfold closeTable.
  destruct (kv !! table_key restaurantId tableNumber)
    as [[| |t| | | |]|] eqn:Hk; try done;
    [|intros [= _ <-]; apply effect_refl].
  set (kv1 := foldl _ kv (Table.orders t)).
  set (kv2 := <[table_key restaurantId tableNumber := _]> kv1).
  assert (Hwf1 : wf kv1) by (by apply wf_delete_orders).
  assert (Hwf2 : wf kv2) by (apply wf_insert; [kind_solve|done]).
  assert (H1 : effect fp signup kv kv1) by (by apply delete_orders_effect).
  assert (H2 : effect fp signup kv1 kv2).
  { apply effect_insert; [done|]. eapply (step_ok_table _ _ _ t); [|done].
    subst kv1. rewrite lookup_delete_orders. case_decide as Hin; [|done].
    apply list_elem_of_fmap in Hin as (orderId & Heq & _).
    exfalso. revert Heq. key_discr. }
  assert (H3 : ∀ sales,
    effect fp signup kv2
      (<[sales_key restaurantId today := VSales sales]> kv2)).
  { intros sales. apply effect_insert; [done|].
    eapply (step_ok_write _ _ _ (VSales sales)); try done; kind_solve. }
  destruct (kv2 !! sales_key restaurantId today) as [[| | | | | |sales]|];
    try done; simpl; intros [= _ <-];
    (eapply effect_trans; [exact H1|]);
    (eapply effect_trans; [exact H2|]); apply H3.
Qed.

Lemma provision_tables_effect fp restaurantId (kv : store) :
  wf kv →
  (∀ i, fp (table_key restaurantId i) = true) →
  effect fp true kv (provision_tables restaurantId kv).
Proof.
  intros Hwf Hfp. unfold provision_tables. generalize (seqZ 1 10).
  intros l. revert kv Hwf. induction l as [|i l IH]; intros kv Hwf.
  - apply effect_refl.
  - cbn [foldl]. eapply effect_trans.
    + apply effect_insert; [done|]. by apply step_ok_provision.
    + apply IH, wf_insert; [kind_solve|done].
Qed.

Lemma registered_effect fp restaurantId now email password restaurantName
    (kv : store) :
  wf kv →
  fp (restaurant_key restaurantId) = true →
  fp (email_key email) = true →
  (∀ i, fp (table_key restaurantId i) = true) →
  effect fp true kv
    (registered restaurantId now email password restaurantName kv).
Proof.
  intros Hwf Hr He Ht. unfold registered.
  set (kv1 := <[restaurant_key restaurantId := _]> kv).
  set (kv2 := <[email_key email := _]> kv1).
  assert (Hwf1 : wf kv1) by (apply wf_insert; [kind_solve|done]).
  assert (Hwf2 : wf kv2) by (apply wf_insert; [kind_solve|done]).
  apply (effect_trans _ _ _ kv1); [|apply (effect_trans _ _ _ kv2)].
  - apply effect_insert; [done|].
    eapply (step_ok_write _ _ _ (VId EmptyString)); try done; kind_solve.
  - apply effect_insert; [done|].
    eapply (step_ok_write _ _ _ (VId EmptyString)); try done; kind_solve.
  - by apply provision_tables_effect.
Qed.

Ltac fp_solve :=
  intros; unfold footprint; cbn [request_restaurant];
  rewrite ?own_key_restaurant, ?own_key_table, ?own_key_order,
    ?own_key_product, ?own_key_inventory, ?own_key_sales, ?String.eqb_refl,
    ?orb_true_r;
  reflexivity.

(** Every request changes only keys of its footprint, and changes them as
    [step_ok] allows. *)
Lemma handle_effect req (kv kv' : store) r :
  wf kv → handle req kv = Some (r, kv') →
  effect (footprint req) (is_signup req) kv kv'.
Proof.
  intros Hwf. destruct req; cbn [handle is_signup].
  - unfold signup.
    destruct (_ || _); [intros [= _ <-]; apply effect_refl|].
    destruct (negb _); [intros [= _ <-]; apply effect_refl|].
    destruct (from_option truthy false _);
      [intros [= _ <-]; apply effect_refl|].
    intros [= _ <-].
    apply (registered_effect _ restaurantId now email password restaurantName
             kv); [done|fp_solve..].
  - unfold setManagerPassword.
    destruct (kv !! restaurant_key restaurantId)
      as [[s|rest| | | | |]|] eqn:Hk; try done.
    + destruct (truthy (VId s)); intros [= _ <-]; apply effect_refl.
    + intros [= _ <-]. apply effect_insert; [fp_solve|].
      eapply (step_ok_write _ _ _ (VId EmptyString)); try done; kind_solve.
    + intros [= _ <-]. apply effect_refl.
  - apply placeOrder_effect; [done|fp_solve..].
  - unfold markReady.
    destruct (kv !! order_key restaurantId orderId)
      as [[| | |o| | |]|] eqn:Hk; try done;
      intros [= _ <-]; [|apply effect_refl].
    apply effect_insert; [fp_solve|].
    eapply (step_ok_write _ _ _ (VOrder o)); try done; kind_solve.
  - intros [= _ <-]. apply effect_delete; [fp_solve|].
    eapply (step_ok_write _ _ _ (VOrder sample_order)); try done; kind_solve.
  - unfold updateLineItem.
    destruct (kv !! order_key restaurantId orderId)
      as [[| | |o| | |]|] eqn:Hk; try done;
      [|intros [= _ <-]; apply effect_refl].
    assert (Hsave : ∀ items,
      effect (footprint (UpdateLineItem restaurantId orderId itemIndex quantity))
        false kv
        (<[order_key restaurantId orderId := VOrder (with_items o items)]> kv)).
    { intros items. apply effect_insert; [fp_solve|].
      eapply (step_ok_write _ _ _ (VOrder o)); try done; kind_solve. }
    destruct (quantity =? 0)%float; [intros [= _ <-]; apply Hsave|].
    destruct (index _ _); intros [= _ <-]; [apply Hsave|apply effect_refl].
  - apply closeTable_effect; [done|fp_solve..].
  - intros [= _ <-]. apply effect_insert; [fp_solve|].
    eapply (step_ok_write _ _ _
              (VProduct (Product.mk productId productId 0 productId [])));
      try done; kind_solve.
  - intros [= _ <-]. apply effect_delete; [fp_solve|].
    eapply (step_ok_write _ _ _
              (VProduct (Product.mk productId productId 0 productId [])));
      try done; kind_solve.
  - unfold adjustInventory.
    destruct (kv !! inventory_key restaurantId ingredient)
      as [[| | | | |current|]|] eqn:Hk; try done; simpl;
      intros [= _ <-]; (apply effect_insert; [fp_solve|]); rewrite Hk.
    + apply step_ok_inventory. by right.
    + apply (step_ok_inventory _ _ (Inventory.mk ingredient 0 unit)).
      by left.
Qed.

(** ** Sequences of requests *)

Lemma step_ok_false signup old new :
  step_ok false old new → step_ok signup old new.
Proof.
  intros (Ht & Hn & Hi). split; [|split]; [| |done].
  - intros t Hold. destruct (Ht t Hold) as (t' & ? & Hnum).
    exists t'. split; [done|]. intros _. by apply Hnum.
  - intros t' Hnew. destruct (Hn t' Hnew) as [|]; [done|by right].
Qed.

(** X7. From a store laid out by the key scheme, every sequence of
    requests runs to the end, and the store it leaves is laid out by the
    scheme again: under a key with one of the six prefixes there is only
    ever an object of that kind (under ["restaurant:"], a restaurant
    record or an id of the email index). *)
Theorem run_keeps_key_scheme (kv : store) reqs :
  wf kv → ∃ kv', run reqs kv = Some kv' ∧ wf kv'.
Proof.
  revert kv. induction reqs as [|req reqs IH]; intros kv Hwf; simpl.
  - by exists kv.
  - destruct (handle_wf req kv Hwf) as (r & kv1 & -> & Hwf1). simpl.
    by apply IH.
Qed.

Lemma run_keeps_key_scheme_witness :
  ∃ kv', run sample_requests sample_store = Some kv' ∧ wf kv'.
Proof.
  apply run_keeps_key_scheme.
  apply (bool_decide_unpack _). vm_compute. exact I.
Defined.

Lemma run_effect (P : request → bool) signup (kv : store) reqs :
  (∀ req, P req = true → is_signup req = true → signup = true) →
  wf kv → forallb P reqs = true →
  ∃ kv', run reqs kv = Some kv'
         ∧ ∀ k, step_ok signup (kv !! k) (kv' !! k)
                ∧ (forallb (λ req, negb (footprint req k)) reqs = true →
                   kv' !! k = kv !! k).
Proof.
  intros Hsignup. revert kv.
  induction reqs as [|req reqs IH]; intros kv Hwf HP; simpl in *.
  - exists kv. split; [done|]. intros k. split; [apply step_ok_refl|done].
  - apply andb_true_iff in HP as [Hreq HP].
    destruct (handle_wf req kv Hwf) as (r & kv1 & Hrun & Hwf1).
    pose proof (handle_effect req kv kv1 r Hwf Hrun) as Heff.
    rewrite Hrun. simpl.
    destruct (IH kv1 Hwf1 HP) as (kv' & Hrest & Hall).
    exists kv'. split; [done|]. intros k.
    destruct (Heff k) as [Hstep Hframe], (Hall k) as [Hsteps Hframes].
    split.
    + eapply step_ok_trans; [|exact Hsteps].
      destruct (is_signup req) eqn:Hs; [|by apply step_ok_false].
      by rewrite (Hsignup req Hreq Hs).
    + intros [Hk Hks]%andb_true_iff. apply negb_true_iff in Hk.
      by rewrite Hframes, Hframe.
Qed.

(** X8. From a store laid out by the key scheme, a sequence of requests
    leaves a key as it was when no request of the sequence has it in its
    footprint: a request writes only under its own restaurant id (the
    restaurant's record and the keys with its table, order, product,
    inventory and sales prefixes) and, for a signup, under the index key
    of the email. *)
Theorem requests_write_only_their_footprint (kv : store) reqs k :
  wf kv →
  forallb (λ req, negb (footprint req k)) reqs = true →
  ∃ kv', run reqs kv = Some kv' ∧ kv' !! k = kv !! k.
Proof.
  intros Hwf Hk.
  destruct (run_effect (λ _, true) true kv reqs) as (kv' & Hrun & Hall);
    [done|done|by apply forallb_forall|].
  exists kv'. split; [done|]. by apply Hall.
Qed.

Lemma requests_write_only_their_footprint_witness :
  ∃ kv',
    run sample_requests sample_store = Some kv'
    ∧ kv' !! order_key "r1" "o1" = sample_store !! order_key "r1" "o1".
Proof.
  apply requests_write_only_their_footprint.
  - apply (bool_decide_unpack _). vm_compute. exact I.
  - vm_compute. reflexivity.
Defined.

(** X9. From a store laid out by the key scheme, a sequence of requests
    without a signup neither adds nor removes a table and changes no
    table's number: the keys that hold a table afterwards are those that
    held one before.  Only the order lists change. *)
Theorem tables_are_stable_without_signup (kv : store) reqs :
  wf kv →
  forallb (λ req, negb (is_signup req)) reqs = true →
  ∃ kv',
    run reqs kv = Some kv'
    ∧ ∀ k,
        (∀ t, kv !! k = Some (VTable t) →
           ∃ t', kv' !! k = Some (VTable t')
                 ∧ Table.number t' = Table.number t)
        ∧ (∀ t', kv' !! k = Some (VTable t') →
             ∃ t, kv !! k = Some (VTable t)).
Proof.
  intros Hwf Hreqs.
  destruct (run_effect (λ req, negb (is_signup req)) false kv reqs)
    as (kv' & Hrun & Hall); [|done|done|].
  { intros req Hn Hs. by rewrite Hs in Hn. }
  exists kv'. split; [done|]. intros k.
  destruct (Hall k) as [(Ht & Hn & _) _]. split.
  - intros t Hold. destruct (Ht t Hold) as (t' & ? & Hnum).
    exists t'. split; [done|]. by apply Hnum.
  - intros t' Hnew. by destruct (Hn t' Hnew).
Qed.

Lemma tables_are_stable_without_signup_witness :
  ∃ kv' t',
    run sample_service sample_store = Some kv'
    ∧ kv' !! table_key "r1" 3 = Some (VTable t')
    ∧ Table.number t' = 3
    ∧ ¬ ∃ t0, kv' !! table_key "r1" 0 = Some (VTable t0).
Proof.
  destruct (tables_are_stable_without_signup sample_store sample_service)
    as (kv' & Hrun & Hall).
  - apply (bool_decide_unpack _). vm_compute. exact I.
  - reflexivity.
  - destruct (Hall (table_key "r1" 3)) as [Hkeep _].
    destruct (Hkeep (Table.mk 3 ["o1"])) as (t' & Ht' & Hnum);
      [vm_compute; reflexivity|].
    exists kv', t'. split; [done|]. split; [done|]. split; [done|].
    destruct (Hall (table_key "r1" 0)) as [_ Hnew].
    intros [t0 H0]. destruct (Hnew t0 H0) as [t Ht].
    vm_compute in Ht. discriminate Ht.
Defined.

(** X10. From a store laid out by the key scheme, no sequence of requests
    deletes an inventory record or changes its ingredient name or unit:
    whatever runs, a record that was stored is still stored under its key
    with the same name and unit, and only its quantity may differ. *)
Theorem inventory_records_are_kept (kv : store) reqs :
  wf kv →
  ∃ kv',
    run reqs kv = Some kv'
    ∧ ∀ k i,
        kv !! k = Some (VInventory i) →
        ∃ quantity,
          kv' !! k
          = Some (VInventory
                    (Inventory.mk (Inventory.ingredient i) quantity
                       (Inventory.unit i))).
Proof.
  intros Hwf.
  destruct (run_effect (λ _, true) true kv reqs) as (kv' & Hrun & Hall);
    [done|done|by apply forallb_forall|].
  exists kv'. split; [done|]. intros k i Hold.
  destruct (Hall k) as [(_ & _ & Hi) _]. by apply Hi.
Qed.

Lemma inventory_records_are_kept_witness :
  ∃ kv' quantity,
    run sample_kitchen_service sample_kitchen = Some kv'
    ∧ kv' !! inventory_key "r1" "bun"
      = Some (VInventory (Inventory.mk "bun" quantity "un")).
Proof.
  destruct (inventory_records_are_kept sample_kitchen sample_kitchen_service)
    as (kv' & Hrun & Hall).
  - apply (bool_decide_unpack _). vm_compute. exact I.
  - destruct (Hall (inventory_key "r1" "bun") (Inventory.mk "bun" 2 "un"))
      as [quantity Hq]; [vm_compute; reflexivity|].
    by exists kv', quantity.
Defined.

(** ** Orders of products without ingredients *)

Lemma inventory_key_split restaurantId g :
  inventory_key restaurantId g = inventory_prefix restaurantId +:+ g.
Proof.
  unfold inventory_key, inventory_prefix. by rewrite !append_assoc.
Qed.

Lemma order_deductions_nil restaurantId (kv : store) items :
  (∀ item p, item ∈ items →
     kv !! product_key restaurantId (Item.productId item) = Some (VProduct p) →
     Product.ingredients p = []) →
  order_deductions restaurantId kv items = [].
Proof.
  unfold order_deductions. induction items as [|item items IH]; intros Hno;
    [done|].
  rewrite bind_cons, IH by (intros ???; apply Hno; by right).
  rewrite app_nil_r. unfold item_deductions.
  destruct (kv !! product_key _ _) as [[| | | |p| |]|] eqn:Hp; try done.
  by rewrite (Hno item p) by (done || left).
Qed.

(** X11. In a store laid out by the key scheme, an order whose items name
    only products that are not stored (never added, or deleted) or that
    list no ingredient is placed like any other, and it changes nothing
    but the order's own key and the table's: every inventory record is as
    it was. *)
Theorem placeOrder_without_ingredients_keeps_stock (kv : store) orderId now
    restaurantId tableNumber items :
  wf kv →
  (∀ item p, item ∈ items →
     kv !! product_key restaurantId (Item.productId item) = Some (VProduct p) →
     Product.ingredients p = []) →
  ∃ kv',
    placeOrder orderId now restaurantId tableNumber items kv
    = Some (ok (SuccessId orderId), kv')
    ∧ ∀ k, k ≠ order_key restaurantId orderId →
           k ≠ table_key restaurantId tableNumber →
           kv' !! k = kv !! k.
Proof.
  intros Hwf Hno.
  destruct (placeOrder_run orderId now restaurantId tableNumber items kv Hwf)
    as (kv' & Hrun & _ & Hframe & Hinv).
  exists kv'. split; [done|]. intros k Ho Ht.
  rewrite <-(order_linked_frame orderId now restaurantId tableNumber items
               kv k) by done.
  destruct (starts_with (inventory_prefix restaurantId) k) eqn:Hk.
  - apply starts_with_inv in Hk as [g ->].
    rewrite <-inventory_key_split, Hinv.
    by rewrite order_deductions_nil.
  - apply Hframe. intros g ->.
    by rewrite inventory_key_has_prefix in Hk.
Qed.

Lemma placeOrder_without_ingredients_keeps_stock_witness :
  ∃ kv1 kv2,
    deleteProduct "r1" "p1" sample_kitchen = Some (ok Success, kv1)
    ∧ placeOrder "o1" 1700000000000 "r1" 3
        [Item.mk "p1" "Burger" 3 25 "food"] kv1
      = Some (ok (SuccessId "o1"), kv2)
    ∧ kv2 !! inventory_key "r1" "bun"
      = Some (VInventory (Inventory.mk "bun" 2 "un")).
Proof.
  destruct (placeOrder_without_ingredients_keeps_stock
              (delete (product_key "r1" "p1") sample_kitchen) "o1"
              1700000000000%float "r1" 3 [Item.mk "p1" "Burger" 3 25 "food"])
    as (kv2 & Hrun & Hsame).
  - apply (bool_decide_unpack _). vm_compute. exact I.
  - intros item p ->%list_elem_of_singleton Hp.
    vm_compute in Hp. discriminate Hp.
  - exists (delete (product_key "r1" "p1") sample_kitchen), kv2.
    split; [reflexivity|]. split; [exact Hrun|].
    rewrite Hsame by key_discr. vm_compute. reflexivity.
Defined.

(** ** The product list *)

(** X12. A product that was added is on the restaurant's product list,
    under the minted id and with the empty list when no ingredients were
    given; once deleted, the list holds exactly what the keys other than
    the product's held before it was added. *)
Theorem product_listed_until_deleted (kv : store) productId restaurantId
    name price category ingredients :
  ∃ kv1 kv2 listed left,
    addProduct productId restaurantId name price category ingredients kv
    = Some (ok (SuccessId productId), kv1)
    ∧ listProducts restaurantId kv1 = Some (ok (ValueList listed), kv1)
    ∧ VProduct
        (Product.mk productId name price category (default [] ingredients))
      ∈ listed
    ∧ deleteProduct restaurantId productId kv1 = Some (ok Success, kv2)
    ∧ listProducts restaurantId kv2 = Some (ok (ValueList left), kv2)
    ∧ ∀ v, v ∈ left
           ↔ ∃ k, k ≠ product_key restaurantId productId
                  ∧ starts_with (product_prefix restaurantId) k = true
                  ∧ kv !! k = Some v.
Proof.
  eexists _, _, _, _. split; [done|]. split; [done|]. split.
  { apply elem_of_getByPrefix. exists (product_key restaurantId productId).
    by rewrite product_key_has_prefix, lookup_insert_eq. }
  split; [done|]. split; [done|].
  intros v. rewrite elem_of_getByPrefix, delete_insert_eq. split.
  - intros (k & Hp & Hk). apply lookup_delete_Some in Hk as [Hne Hk].
    exists k. by split; [apply not_eq_sym|].
  - intros (k & Hne & Hp & Hk). exists k. split; [done|].
    by rewrite lookup_delete_ne by (by apply not_eq_sym).
Qed.

(** ** The cashier's checkout *)




(** ** The carts *)

Lemma hasProduct_true id item :
  hasProduct id item = true ↔ Product.id (CartItem.product item) = id.
Proof. unfold hasProduct. apply String.eqb_eq. Qed.

Lemma cart_ids_map (f : CartItem.t → CartItem.t) cart :
  (∀ item, CartItem.product (f item) = CartItem.product item) →
  cart_ids (map f cart) = cart_ids cart.
Proof.
  intros Hf. unfold cart_ids. rewrite map_map. apply map_ext.
  intros item. by rewrite Hf.
Qed.

Lemma cart_ids_filter P cart :
  cart_ids (List.filter P cart) `sublist_of` cart_ids cart.
Proof.
  induction cart as [|item cart IH]; simpl; [done|].
  destruct (P item); simpl; [by apply sublist_skip|by apply sublist_cons].
Qed.

Lemma find_hasProduct_None id cart :
  find (hasProduct id) cart = None ↔ id ∉ cart_ids cart.
Proof.
  induction cart as [|item cart IH]; simpl.
  - split; [intros _; apply not_elem_of_nil|done].
  - rewrite not_elem_of_cons, <-IH.
    destruct (hasProduct id item) eqn:Hi.
    + apply hasProduct_true in Hi. split; [done|]. by intros [[] _].
    + split; [|by intros []]. intros Hf. split; [|done].
      intros ->. by rewrite (proj2 (hasProduct_true _ _) eq_refl) in Hi.
Qed.

(** X14. A cart with one line per product keeps one line per product:
    [addToCart] and [removeFromCart] of the waiter view and the minus
    button of the delivery dialog never leave two lines with the same
    product id, and after [addToCart] the product has a line. *)
Theorem carts_keep_one_line_per_product (cart : list CartItem.t) product
    productId :
  NoDup (cart_ids cart) →
  NoDup (cart_ids (addToCart product cart))
  ∧ Product.id product ∈ cart_ids (addToCart product cart)
  ∧ NoDup (cart_ids (removeFromCart productId cart))
  ∧ NoDup (cart_ids (deliveryMinus productId cart)).
Proof.
  intros Hnodup.
  assert (Hless : ∀ (test : CartItem.t → bool),
    cart_ids (map (λ item, if test item then lessQuantity item else item) cart)
    = cart_ids cart).
  { intros test. apply cart_ids_map. intros item. by destruct (test item). }
  assert (Hremoved : ∀ P, NoDup (cart_ids (List.filter P cart))).
  { intros P. eapply sublist_NoDup; [done|apply cart_ids_filter]. }
  split; [|split; [|split]].
  - unfold addToCart.
    destruct (find _ cart) as [existing|] eqn:Hfind.
    + rewrite cart_ids_map; [done|]. intros item. by destruct (hasProduct _ _).
    + unfold cart_ids. rewrite map_app. fold (cart_ids cart). simpl.
      apply NoDup_app. split; [done|]. split; [|apply NoDup_singleton].
      intros id Hin ->%list_elem_of_singleton.
      by apply find_hasProduct_None in Hfind.
  - unfold addToCart.
    destruct (find _ cart) as [existing|] eqn:Hfind.
    + rewrite cart_ids_map by (intros item; by destruct (hasProduct _ _)).
      destruct (decide (Product.id product ∈ cart_ids cart)) as [|Hno];
        [done|].
      apply find_hasProduct_None in Hno. by rewrite Hno in Hfind.
    + unfold cart_ids. rewrite map_app. apply elem_of_app. right. simpl.
      by left.
  - unfold removeFromCart.
    destruct (find _ cart) as [existing|]; [|apply Hremoved].
    destruct (_ <? _)%float; [by rewrite Hless|apply Hremoved].
  - unfold deliveryMinus.
    eapply sublist_NoDup; [|apply cart_ids_filter]. by rewrite Hless.
Qed.

Lemma carts_keep_one_line_per_product_witness :
  NoDup (cart_ids (addToCart sample_burger sample_cart))
  ∧ NoDup (cart_ids (removeFromCart "p2" sample_cart)).
Proof.
  destruct (carts_keep_one_line_per_product sample_cart sample_burger "p2")
    as (Hadd & _ & Hremove & _); [|by split].
  apply (bool_decide_unpack _). vm_compute. exact I.
Defined.

(** X15. Adding a product that has no line in the waiter's cart and then
    removing it gives the cart back: the new line has quantity 1, and
    [removeFromCart] drops a line at quantity 1 instead of counting down
    to 0. *)
Theorem addToCart_then_removeFromCart (cart : list CartItem.t) product :
  Product.id product ∉ cart_ids cart →
  addToCart product cart = cart ++ [CartItem.mk product 1]
  ∧ removeFromCart (Product.id product) (addToCart product cart) = cart.
Proof.
  intros Hnew.
  assert (Hadd : addToCart product cart = cart ++ [CartItem.mk product 1]).
  { unfold addToCart. by rewrite (proj2 (find_hasProduct_None _ _) Hnew). }
  split; [done|]. rewrite Hadd.
  assert (Hnone : ∀ item, In item cart →
                          hasProduct (Product.id product) item = false).
  { apply find_none. by apply find_hasProduct_None. }
  assert (Hthis : hasProduct (Product.id product) (CartItem.mk product 1)
                  = true) by (by apply hasProduct_true).
  assert (Hfind : find (hasProduct (Product.id product))
                    (cart ++ [CartItem.mk product 1])
                  = Some (CartItem.mk product 1)).
  { clear Hadd Hnew. induction cart as [|item cart IH]; simpl.
    - by rewrite Hthis.
    - rewrite (Hnone item) by (by left). apply IH.
      intros item' Hin. apply Hnone. by right. }
  unfold removeFromCart. rewrite Hfind. cbn [CartItem.quantity].
  change (1 <? 1)%float with false. cbv iota.
  rewrite List.filter_app. simpl. rewrite Hthis. simpl.
  rewrite app_nil_r. apply forallb_filter_id, forallb_forall.
  intros item Hin. by rewrite (Hnone item).
Qed.

Lemma addToCart_then_removeFromCart_witness :
  removeFromCart "p2" (addToCart sample_juice [CartItem.mk sample_burger 2])
  = [CartItem.mk sample_burger 2].
Proof.
  apply (addToCart_then_removeFromCart [CartItem.mk sample_burger 2]
           sample_juice).
  apply (bool_decide_unpack _). vm_compute. exact I.
Defined.

(** X16. In the delivery dialog the minus button cannot take a product
    out of the cart: when every line of the cart has a quantity above 0
    and the lines of the product are at quantity 1 (as a new line is),
    pressing minus leaves the cart exactly as it is.  The waiter's
    [removeFromCart] on the same cart leaves no line of the product. *)
Theorem deliveryMinus_keeps_last_unit (cart : list CartItem.t) productId :
  (∀ item, item ∈ cart → (0 <? CartItem.quantity item)%float = true) →
  (∀ item, item ∈ cart → hasProduct productId item = true →
     CartItem.quantity item = 1%float) →
  deliveryMinus productId cart = cart
  ∧ productId ∉ cart_ids (removeFromCart productId cart).
Proof.
  intros Hpos Hone. split.
  - unfold deliveryMinus.
    assert (Hmap : map (λ i, if hasProduct productId i
                                && (1 <? CartItem.quantity i)%float
                             then lessQuantity i else i) cart = cart).
    { rewrite <-(map_id cart) at 2. apply map_ext_in. intros item Hin.
      apply list_elem_of_In in Hin.
      destruct (hasProduct productId item) eqn:Hi; [|done].
      by rewrite (Hone item Hin Hi). }
    rewrite Hmap. apply forallb_filter_id, forallb_forall.
    intros item Hin. apply Hpos. by apply list_elem_of_In.
  - assert (Hremoved : productId ∉ cart_ids
      (List.filter (λ item, negb (hasProduct productId item)) cart)).
    { unfold cart_ids. rewrite list_elem_of_In, in_map_iff.
      intros (item & Hid & Hin). apply filter_In in Hin as [_ Hno].
      apply hasProduct_true in Hid. by rewrite Hid in Hno. }
    unfold removeFromCart.
    destruct (find _ cart) as [existing|] eqn:Hfind; [|done].
    apply find_some in Hfind as [Hin He].
    by rewrite (Hone existing) by (done || by apply list_elem_of_In).
Qed.

Lemma deliveryMinus_keeps_last_unit_witness :
  deliveryMinus "p2" sample_cart = sample_cart
  ∧ "p2" ∉ cart_ids (removeFromCart "p2" sample_cart).
Proof.
  apply deliveryMinus_keeps_last_unit.
  - intros item Hin. repeat (apply elem_of_cons in Hin as [->|Hin]; [done|]).
    by apply elem_of_nil in Hin.
  - intros item Hin Hid.
    repeat (apply elem_of_cons in Hin as [->|Hin];
            [first [done | discriminate Hid]|]).
    by apply elem_of_nil in Hin.
Defined.

(** ** Positions counted from the end *)

(** X17. With quantity 0, a negative [itemIndex] counts from the end of
    the items, as [splice] does: [-k] with [k] at most the item count
    removes the item [k] places from the end ([-1] the last one), and a
    more negative one removes the first item.  With a nonzero quantity a
    negative [itemIndex] is answered 500 and nothing is stored. *)
Theorem updateLineItem_negative_index (kv : store) restaurantId orderId o
    (k : nat) quantity :
  kv !! order_key restaurantId orderId = Some (VOrder o) →
  (1 ≤ k)%nat →
  Order.items o ≠ [] →
  let n := length (Order.items o) in
  ((quantity =? 0)%float = true →
   updateLineItem restaurantId orderId (- Z.of_nat k) quantity kv
   = Some (ok Success,
           <[order_key restaurantId orderId :=
               VOrder (with_items o (delete (n - k)%nat (Order.items o)))]>
             kv)
   ∧ S (length (delete (n - k)%nat (Order.items o))) = n)
  ∧ ((quantity =? 0)%float = false →
     updateLineItem restaurantId orderId (- Z.of_nat k) quantity kv
     = Some (Json (Failure "Failed to update order item") 500, kv)).
Proof.
  intros Hk Hpos Hitems n. split.
  - intros Hq. unfold updateLineItem. rewrite Hk, Hq.
    assert (splice1 (- Z.of_nat k) (Order.items o)
            = delete (n - k)%nat (Order.items o)) as ->.
    { unfold splice1. fold n.
      destruct (Z.ltb_spec (- Z.of_nat k) 0); [|lia]. f_equal. lia. }
    split; [done|].
    rewrite length_delete; fold n.
    + destruct (Order.items o); [done|]. simpl in *. lia.
    + apply lookup_lt_is_Some. fold n.
      destruct (Order.items o); [done|]. simpl in *. lia.
  - intros Hq. unfold updateLineItem, index. rewrite Hk, Hq.
    by destruct (Z.leb_spec 0 (- Z.of_nat k)); [lia|].
Qed.

Lemma updateLineItem_negative_index_witness :
  updateLineItem "r1" "o1" (-1) 0 sample_store
  = Some (ok Success,
          <[order_key "r1" "o1" :=
              VOrder (with_items sample_order
                        [Item.mk "p1" "Burger" 2 25 "food"])]> sample_store)
  ∧ updateLineItem "r1" "o1" (-7) 0 sample_store
    = Some (ok Success,
            <[order_key "r1" "o1" :=
                VOrder (with_items sample_order
                          [Item.mk "p2" "Juice" 1 8 "drink"])]> sample_store).
Proof.
  split.
  - destruct (updateLineItem_negative_index sample_store "r1" "o1"
                sample_order 1 0%float) as [H0 _];
      [vm_compute; reflexivity|lia|discriminate|].
    destruct (H0 eq_refl) as [H _]. exact H.
  - destruct (updateLineItem_negative_index sample_store "r1" "o1"
                sample_order 7 0%float) as [H0 _];
      [vm_compute; reflexivity|lia|discriminate|].
    destruct (H0 eq_refl) as [H _]. exact H.
Defined.

(** ** From the waiter's cart to the cashier's subtotal *)

Lemma itemsTotal_cartItems cart : itemsTotal (cartItems cart) = cartTotal cart.
Proof.
  unfold itemsTotal, cartTotal, cartItems. generalize 0%float.
  induction cart as [|line cart IH]; intros sum; [done|]. simpl. apply IH.
Qed.

(** X18. In a store laid out by the key scheme, when the waiter sends a
    cart as an order to an existing table without orders, the order is
    stored with one item per cart line (the product's id, name, price and
    category and the line's quantity), the table lists exactly that
    order, and the subtotal the cashier view computes for the table is
    the sum over the cart lines of price times quantity. *)
Theorem cart_order_reaches_the_cashier (kv : store) orderId now restaurantId
    tableNumber t cart :
  wf kv →
  kv !! table_key restaurantId tableNumber = Some (VTable t) →
  Table.orders t = [] →
  ∃ kv' order,
    placeOrder orderId now restaurantId tableNumber (cartItems cart) kv
    = Some (ok (SuccessId orderId), kv')
    ∧ order
      = Order.mk orderId restaurantId tableNumber (cartItems cart) "pending"
          now
    ∧ length (Order.items order) = length cart
    ∧ listTableOrders restaurantId tableNumber kv'
      = Some (ok (OrderList [order]), kv')
    ∧ getTableTotal [order] = (0 + cartTotal cart)%float.
Proof.
  intros Hwf Ht Hempty.
  destruct (placeOrder_run orderId now restaurantId tableNumber
              (cartItems cart) kv Hwf) as (kv' & Hrun & _ & Hframe & _).
  eexists kv', _. split; [done|]. split; [done|].
  split; [apply length_map|]. split.
  - unfold listTableOrders.
    rewrite !Hframe by (intros g; key_discr). unfold order_linked.
    rewrite Ht, lookup_insert_eq. unfold with_order. rewrite Hempty. simpl.
    rewrite Hframe by (intros g; key_discr). unfold order_linked.
    rewrite Ht, lookup_insert_ne by key_discr.
    by rewrite lookup_insert_eq.
  - unfold getTableTotal. simpl. by rewrite itemsTotal_cartItems.
Qed.

Lemma cart_order_reaches_the_cashier_witness :
  ∃ kv',
    placeOrder "o9" 1700000000900 "r1" 3 (cartItems sample_cart) sample_kitchen
    = Some (ok (SuccessId "o9"), kv')
    ∧ listTableOrders "r1" 3 kv'
      = Some (ok (OrderList
                    [Order.mk "o9" "r1" 3 (cartItems sample_cart) "pending"
                       1700000000900]), kv')
    ∧ cartTotal sample_cart = 58%float.
Proof.
  destruct (cart_order_reaches_the_cashier sample_kitchen "o9"
              1700000000900%float "r1" 3 (Table.mk 3 []) sample_cart)
    as (kv' & order & Hrun & -> & _ & Hlist & _).
  - apply (bool_decide_unpack _). vm_compute. exact I.
  - vm_compute. reflexivity.
  - reflexivity.
  - exists kv'. split; [done|]. split; [done|]. reflexivity.
Defined.
